(** * tinygrad/ops/ops_gpu.py: the differentiable operators of the GPU backend

    A shallow embedding of the operator table of [ops_gpu.py]: every
    [forward] and [backward] is a program of a small state-and-exception
    monad.  The state holds the operator's context object [ctx], the device
    allocator and the list of device primitives invoked so far. *)

From stdpp Require Import base numbers list strings sorting.

Local Open Scope string_scope.
Local Open Scope Z_scope.

(** ** Python values and exceptions *)

(** The exceptions the operator code can raise: the ones of the Python
    runtime (unpacking, indexing, division, [assert], [list(None)]) and the
    [Exception] that [Conv2D.forward] raises itself; its payload holds the
    values its message interpolates. *)
Inductive Exn :=
| TypeError
| ValueError
| IndexError
| ZeroDivisionError
| AssertionError
| Exception (x_shape w_shape : list Z) (cin_groups cin_ : Z).

Inductive Res (A : Type) :=
| Ok (a : A)
| Raise (e : Exn).
Arguments Ok {A} a.
Arguments Raise {A} e.

#[global] Instance Res_ret : MRet Res := λ A a, Ok a.
#[global] Instance Res_bind : MBind Res := λ A B f r,
  match r with Ok a => f a | Raise e => Raise e end.
#[global] Instance Res_fmap : FMap Res := λ A B f r,
  match r with Ok a => Ok (f a) | Raise e => Raise e end.

(** A list comprehension [[f i for i in l]] whose element expression can
    raise: elements are evaluated left to right, the first exception wins. *)
Fixpoint comprehension {A B : Type} (f : A → Res B) (l : list A) : Res (list B) :=
  match l with
  | [] => Ok []
  | a :: l' => b ← f a; bs ← comprehension f l'; Ok (b :: bs)
  end.

(** [n // d] and [n % d] on Python integers: the floor division and the
    remainder with the sign of the divisor, [ZeroDivisionError] for [d = 0]. *)
Definition py_floordiv (n d : Z) : Res Z :=
  if d =? 0 then Raise ZeroDivisionError else Ok (n / d).
Definition py_mod (n d : Z) : Res Z :=
  if d =? 0 then Raise ZeroDivisionError else Ok (n `mod` d).

(** The position a Python (or numpy) index [i] denotes in a sequence of
    length [n]: negative indices count from the end, anything outside
    [-n .. n-1] is an [IndexError]. *)
Definition norm_index (n : nat) (i : Z) : Res nat :=
  if bool_decide (0 ≤ i < Z.of_nat n) then Ok (Z.to_nat i)
  else if bool_decide (- Z.of_nat n ≤ i < 0) then Ok (Z.to_nat (Z.of_nat n + i))
  else Raise IndexError.

(** [t[i]] on a tuple. *)
Definition py_index (t : list Z) (i : Z) : Res Z :=
  j ← norm_index (length t) i;
  match t !! j with Some v => Ok v | None => Raise IndexError end.

(** [t[0:-1]]: all but the last element (empty for the empty tuple). *)
Definition py_slice_0_m1 (t : list Z) : list Z := take (length t - 1)%nat t.

(** [list(axis)]: [None] is not iterable. *)
Definition py_list {A : Type} (o : option (list A)) : Res (list A) :=
  match o with Some l => Ok l | None => Raise TypeError end.

(** ** numpy *)

(** [a[idx] = v] with a list of integer indices on a one-dimensional array:
    every index is bounds-checked, negative ones wrap. *)
Fixpoint np_setitem (a : list Z) (idx : list Z) (v : Z) : Res (list Z) :=
  match idx with
  | [] => Ok a
  | i :: idx' => j ← norm_index (length a) i; np_setitem (<[j := v]> a) idx' v
  end.

(** int64 arithmetic wraps silently. *)
Definition wrap64 (z : Z) : Z := (z + 2 ^ 63) `mod` 2 ^ 64 - 2 ^ 63.

(** [np.prod] of a shape whose entries fit int64, as the dimensions of a
    buffer do: the int64 product of the entries, wrapping silently, 1 when
    the shape is empty.  (For an entry of 2^63 or more numpy leaves int64 for
    uint64, float64 or Python integers; no shape of a buffer has one.) *)
Definition np_prod (l : list Z) : Z :=
  foldl (λ acc v, wrap64 (acc * v)) 1 l.

(** [a // b] on int64 scalars: floor division, 0 (and a warning) for
    [b = 0]. *)
Definition np_floordiv (a b : Z) : Z := wrap64 (a / b).

(** [np.argsort]: the indices that sort the keys.  Equal keys keep the order
    of their indices: numpy's default sort is an insertion sort on an array
    as short as a list of axes (fewer than 17 entries), which moves an entry
    only past strictly greater ones.  A pair is a key with its index, and
    pairs are compared by key, then by index. *)
Definition key_le (p q : Z * nat) : Prop :=
  p.1 < q.1 ∨ (p.1 = q.1 ∧ (p.2 ≤ q.2)%nat).
#[global] Instance key_le_dec : RelDecision key_le.
Proof. intros p q. unfold key_le. apply _. Defined.

Definition argsort (keys : list Z) : list Z :=
  (λ p : Z * nat, Z.of_nat p.2) <$> merge_sort key_le (zip keys (seq 0 (length keys))).

(** ** Device buffers and the device-level primitives *)

(** Modelled from the spec: the device-resident buffer, [GPUBuffer] of
    [llops.opencl], which this slice of the repository does not contain.
    The operators read its [shape] only.  [cl] names the device memory behind
    it, which two buffers share when one was made with [hostbuf=] the other.
    What the memory holds (float32 values computed by OpenCL kernels) is not
    part of this development. *)
Record Buffer := mkBuffer { shape : list Z; cl : nat }.

(** One invocation of a primitive of [llops.opencl], with the arguments the
    operator passed.  [start] is [None] when the keyword is not given;
    [transpose_a] and [transpose_b] are [true] when passed as [True].
    [conv_args] is the tuple
    [H, W, groups, rcout, cin, oy, ox, iy, ix, ys, xs, bs]. *)
Inductive Call :=
| call_unary_op (code : string) (x ret : Buffer)
| call_binary_op (code : string) (x y ret : Buffer)
| call_reduce_op (code : string) (inp ret : Buffer) (start : option string)
| call_perm_axis (inp : Buffer) (order : list Z) (ret : Buffer)
| call_inner_slice (x : Buffer) (arg : list (Z * Z)) (ret : Buffer)
| call_matmul (a b c : Buffer) (transpose_a transpose_b : bool)
| call_conv (x w ret : Buffer) (conv_args : list Z)
| call_convdw (x grad_output dw : Buffer) (conv_args : list Z)
| call_convdx (w grad_output dx : Buffer) (conv_args : list Z).

(** The output buffer a call was given: the buffer argument the operators
    build with [Buffer(...)] and pass after the inputs. *)
Definition call_out (c : Call) : Buffer :=
  match c with
  | call_unary_op _ _ ret => ret
  | call_binary_op _ _ _ ret => ret
  | call_reduce_op _ _ ret _ => ret
  | call_perm_axis _ _ ret => ret
  | call_inner_slice _ _ ret => ret
  | call_matmul _ _ c _ _ => c
  | call_conv _ _ ret _ => ret
  | call_convdw _ _ dw _ => dw
  | call_convdx _ _ dx _ => dx
  end.

(** What [ops_gpu.py] imports and this slice of the repository does not
    contain: [tinygrad.helpers.binary_broadcast], which may raise, and the
    kernels of [llops.opencl], of which the operators use the returned
    buffer.  Both are parameters of everything below. *)
Class Backend := {
  binary_broadcast : list Z → list Z → Res (list Z);
  kernel : Call → Buffer;
}.

(** The convention the operators rely on ([Sum.backward] and [Max.backward]
    pass a buffer as the output and go on using it): a primitive fills the
    output buffer it is given and returns a buffer of that shape. *)
Definition returns_out_shape (B : Backend) : Prop :=
  ∀ c, shape (kernel c) = shape (call_out c).

(** ** The context object and the state *)

Inductive PyVal :=
| VBuffer (b : Buffer)
| VShape (s : list Z)
| VAxis (a : option (list Z))
| VOrder (o : list Z).

(** [stride] of [Conv2D] is an [int] or a pair. *)
Inductive Stride :=
| stride_int (s : Z)
| stride_pair (ys xs : Z).

(** Modelled from the spec: the context object of an operator, an instance
    of [Function] ([tinygrad/tensor.py], not in this slice).  These are the
    attributes the operators use: [Function] creates [ctx] with one
    [needs_input_grad] flag per tensor input and an empty [saved_tensors],
    and sets every keyword argument of [forward] as an attribute. *)
Record Ctx := mkCtx {
  needs_input_grad : list bool;
  saved_tensors : list PyVal;
  ctx_stride : Stride;
  ctx_groups : Z;
  ctx_order : list Z;
  ctx_arg : option (list (Z * Z));
}.

Record State := mkState {
  ctx : Ctx;
  next_cl : nat;
  trace : list Call;
}.

Definition M (A : Type) : Type := State → Res A * State.

#[global] Instance M_ret : MRet M := λ A a s, (Ok a, s).
#[global] Instance M_bind : MBind M := λ A B f m s,
  match m s with
  | (Ok a, s') => f a s'
  | (Raise e, s') => (Raise e, s')
  end.
#[global] Instance M_fmap : FMap M := λ A B f m s,
  match m s with
  | (Ok a, s') => (Ok (f a), s')
  | (Raise e, s') => (Raise e, s')
  end.

Definition raise {A : Type} (e : Exn) : M A := λ s, (Raise e, s).
Definition lift {A : Type} (r : Res A) : M A := λ s, (r, s).
Definition get_ctx : M Ctx := λ s, (Ok (ctx s), s).
Definition set_ctx (c : Ctx) : M () := λ s, (Ok (), mkState c (next_cl s) (trace s)).

Definition result {A : Type} (m : M A) (s : State) : Res A := (m s).1.
Definition final {A : Type} (m : M A) (s : State) : State := (m s).2.

(** [assert b] *)
Definition py_assert (b : bool) : M () :=
  if b then mret () else raise AssertionError.

(** Modelled from the spec: [ctx.save_for_backward( *x )], a method of
    [Function], extends [ctx.saved_tensors], from which [backward] unpacks
    what [forward] saved. *)
Definition save_for_backward (x : list PyVal) : M () :=
  c ← get_ctx;
  set_ctx (mkCtx (needs_input_grad c) (saved_tensors c ++ x)
                 (ctx_stride c) (ctx_groups c) (ctx_order c) (ctx_arg c)).

(** [ctx.needs_input_grad[i]] *)
Definition needs_grad (i : nat) : M bool :=
  c ← get_ctx;
  match needs_input_grad c !! i with
  | Some b => mret b
  | None => raise IndexError
  end.

(** [e if ctx.needs_input_grad[i] else None] *)
Definition if_needs_grad (i : nat) (e : M Buffer) : M (option Buffer) :=
  b ← needs_grad i;
  if b : bool then Some <$> e else mret None.

(** Unpacking a sequence into one, two, three or four names. *)
Definition unpack1 {A : Type} (l : list A) : Res A :=
  match l with [a] => Ok a | _ => Raise ValueError end.
Definition unpack2 {A : Type} (l : list A) : Res (A * A) :=
  match l with [a; b] => Ok (a, b) | _ => Raise ValueError end.
Definition unpack3 {A : Type} (l : list A) : Res (A * A * A) :=
  match l with [a; b; c] => Ok (a, b, c) | _ => Raise ValueError end.
Definition unpack4 {A : Type} (l : list A) : Res (A * A * A * A) :=
  match l with [a; b; c; d] => Ok (a, b, c, d) | _ => Raise ValueError end.

(** A saved value used as a buffer, a shape or an axis list.  After the
    [forward] of the same class the value has the expected kind. *)
Definition as_buffer (v : PyVal) : Res Buffer :=
  match v with VBuffer b => Ok b | _ => Raise TypeError end.
Definition as_shape (v : PyVal) : Res (list Z) :=
  match v with VShape s => Ok s | _ => Raise TypeError end.
Definition as_axis (v : PyVal) : Res (option (list Z)) :=
  match v with VAxis a => Ok a | _ => Raise TypeError end.

(** Modelled from the spec: the constructor of the device buffer.
    [Buffer(shape)] allocates device memory; [Buffer(shape, hostbuf=x)] is a
    new buffer on the memory of [x] (the source notes that it is not a
    copy). *)
Definition new_Buffer (sh : list Z) : M Buffer := λ s,
  (Ok (mkBuffer sh (next_cl s)), mkState (ctx s) (S (next_cl s)) (trace s)).
Definition view_Buffer (sh : list Z) (hostbuf : Buffer) : M Buffer :=
  mret (mkBuffer sh (cl hostbuf)).

Section ops_gpu.
Context {B : Backend}.

(** Invoking a device primitive: the call is recorded and the kernel's
    buffer returned. *)
Definition invoke (c : Call) : M Buffer := λ s,
  (Ok (kernel c), mkState (ctx s) (next_cl s) (trace s ++ [c])).

Definition unary_op (code : string) (x ret : Buffer) : M Buffer :=
  invoke (call_unary_op code x ret).
Definition binary_op (code : string) (x y ret : Buffer) : M Buffer :=
  invoke (call_binary_op code x y ret).
Definition reduce_op (code : string) (inp ret : Buffer) (start : option string) : M Buffer :=
  invoke (call_reduce_op code inp ret start).
Definition perm_axis (inp : Buffer) (order : list Z) (ret : Buffer) : M Buffer :=
  invoke (call_perm_axis inp order ret).
Definition inner_slice (x : Buffer) (arg : list (Z * Z)) (ret : Buffer) : M Buffer :=
  invoke (call_inner_slice x arg ret).
Definition matmul (a b c : Buffer) (transpose_a transpose_b : bool) : M Buffer :=
  invoke (call_matmul a b c transpose_a transpose_b).
Definition conv (x w ret : Buffer) (conv_args : list Z) : M Buffer :=
  invoke (call_conv x w ret conv_args).
Definition convdw (x grad_output dw : Buffer) (conv_args : list Z) : M Buffer :=
  invoke (call_convdw x grad_output dw conv_args).
Definition convdx (w grad_output dx : Buffer) (conv_args : list Z) : M Buffer :=
  invoke (call_convdx w grad_output dx conv_args).

(** *** unary ops *)

(** The class attributes [fop] and [bop] of a subclass of [UnaryOp]. *)
Record UnaryOpClass := { fop : string; bop : string }.

Definition UnaryOp_forward (cls : UnaryOpClass) (input : Buffer) : M Buffer :=
  save_for_backward [VBuffer input];;
  ret ← new_Buffer (shape input);
  unary_op (fop cls) input ret.

Definition UnaryOp_backward (cls : UnaryOpClass) (grad_output : Buffer) : M Buffer :=
  c ← get_ctx;
  v ← lift (unpack1 (saved_tensors c));
  input ← lift (as_buffer v);
  ret ← new_Buffer (shape input);
  binary_op (bop cls) input grad_output ret.

Definition ReLU : UnaryOpClass := {| fop := "max(a, (float)0.)"; bop := "b * (a >= 0)" |}.
Definition Log : UnaryOpClass := {| fop := "log(a)"; bop := "b / a" |}.
Definition Exp : UnaryOpClass := {| fop := "exp(a)"; bop := "b * exp(a)" |}.

(** *** reduce ops *)

Definition reduce_shape (sh : list Z) (axis : option (list Z)) : Res (list Z) :=
  let osize := sh in
  idx ← py_list axis;
  np_setitem osize idx 1.

Definition Sum_forward (input : Buffer) (axis : option (list Z)) : M Buffer :=
  save_for_backward [VShape (shape input)];;
  osize ← lift (reduce_shape (shape input) axis);
  ret ← new_Buffer osize;
  reduce_op "out += a" input ret None.

Definition Sum_backward (grad_output : Buffer) : M Buffer :=
  c ← get_ctx;
  v ← lift (unpack1 (saved_tensors c));
  shape_input ← lift (as_shape v);
  ret ← new_Buffer shape_input;
  binary_op "a" grad_output ret ret.

Definition Max_forward (input : Buffer) (axis : option (list Z)) : M Buffer :=
  osize ← lift (reduce_shape (shape input) axis);
  out ← new_Buffer osize;
  ret ← reduce_op "out = max(a,out)" input out (Some "-INFINITY");
  save_for_backward [VBuffer input; VAxis axis; VBuffer ret];;
  mret ret.

Definition Max_backward (grad_output : Buffer) : M Buffer :=
  c ← get_ctx;
  '(vi, va, vr) ← lift (unpack3 (saved_tensors c));
  input ← lift (as_buffer vi);
  axis ← lift (as_axis va);
  ret ← lift (as_buffer vr);
  out ← new_Buffer (shape input);
  ret2 ← binary_op "1.0*(a==b)" input ret out;
  osize ← lift (reduce_shape (shape ret2) axis);
  out ← new_Buffer osize;
  div ← reduce_op "out += a" ret2 out (Some "1e-10");
  binary_op "a/b" ret2 div ret2;;
  binary_op "a*b" ret2 grad_output ret2.

(** *** binary ops *)

Definition unbroadcast (out : Buffer) (in_sh : list Z) : M Buffer :=
  ret ← new_Buffer in_sh;
  reduce_op "out += a" out ret None.

(** [x, y = ctx.saved_tensors] where [forward] saved two shapes, or two
    buffers. *)
Definition saved_shapes : M (list Z * list Z) :=
  c ← get_ctx;
  '(vx, vy) ← lift (unpack2 (saved_tensors c));
  shape_x ← lift (as_shape vx);
  shape_y ← lift (as_shape vy);
  mret (shape_x, shape_y).
Definition saved_buffers : M (Buffer * Buffer) :=
  c ← get_ctx;
  '(vx, vy) ← lift (unpack2 (saved_tensors c));
  x ← lift (as_buffer vx);
  y ← lift (as_buffer vy);
  mret (x, y).

Definition Add_forward (x y : Buffer) : M Buffer :=
  save_for_backward [VShape (shape x); VShape (shape y)];;
  sh ← lift (binary_broadcast (shape x) (shape y));
  ret ← new_Buffer sh;
  binary_op "a+b" x y ret.

Definition Add_backward (grad_output : Buffer) : M (option Buffer * option Buffer) :=
  '(shape_x, shape_y) ← saved_shapes;
  gx ← if_needs_grad 0 (unbroadcast grad_output shape_x);
  gy ← if_needs_grad 1 (unbroadcast grad_output shape_y);
  mret (gx, gy).

Definition Sub_forward (x y : Buffer) : M Buffer :=
  save_for_backward [VShape (shape x); VShape (shape y)];;
  sh ← lift (binary_broadcast (shape x) (shape y));
  ret ← new_Buffer sh;
  binary_op "a-b" x y ret.

Definition Sub_backward (grad_output : Buffer) : M (option Buffer * option Buffer) :=
  '(shape_x, shape_y) ← saved_shapes;
  gx ← if_needs_grad 0 (unbroadcast grad_output shape_x);
  gy ← if_needs_grad 1 (
    out ← new_Buffer (shape grad_output);
    neg ← unary_op "-a" grad_output out;
    unbroadcast neg shape_y);
  mret (gx, gy).

Definition Mul_forward (x y : Buffer) : M Buffer :=
  save_for_backward [VBuffer x; VBuffer y];;
  sh ← lift (binary_broadcast (shape x) (shape y));
  ret ← new_Buffer sh;
  binary_op "a*b" x y ret.

Definition Mul_backward (grad_output : Buffer) : M (option Buffer * option Buffer) :=
  '(x, y) ← saved_buffers;
  tmp ← new_Buffer (shape grad_output);
  grad_x ← if_needs_grad 0 (
    t ← binary_op "a*b" y grad_output tmp;
    unbroadcast t (shape x));
  grad_y ← if_needs_grad 1 (
    t ← binary_op "a*b" x grad_output tmp;
    unbroadcast t (shape y));
  mret (grad_x, grad_y).

Definition Pow_forward (x y : Buffer) : M Buffer :=
  save_for_backward [VBuffer x; VBuffer y];;
  sh ← lift (binary_broadcast (shape x) (shape y));
  ret ← new_Buffer sh;
  binary_op "pow(a,b)" x y ret.

Definition Pow_backward (grad_output : Buffer) : M (option Buffer * option Buffer) :=
  '(x, y) ← saved_buffers;
  tmp ← new_Buffer (shape grad_output);
  grad_x ← if_needs_grad 0 (
    t ← binary_op "b * pow(a, b-1.0f)" x y tmp;
    t' ← binary_op "a*b" grad_output t tmp;
    unbroadcast t' (shape x));
  grad_y ← if_needs_grad 1 (
    t ← binary_op "log(a) * pow(a, b)" x y tmp;
    t' ← binary_op "a*b" grad_output t tmp;
    unbroadcast t' (shape y));
  mret (grad_x, grad_y).

(** *** movement ops *)

(** [tuple(-np.prod(x.shape) // np.prod(shape) if s == -1 else s for s in shape)] *)
Definition Reshape_shape (x_shape sh : list Z) : list Z :=
  (λ s, if s =? -1
        then np_floordiv (wrap64 (- np_prod x_shape)) (np_prod sh)
        else s) <$> sh.

Definition Reshape_forward (x : Buffer) (sh : list Z) : M Buffer :=
  save_for_backward [VShape (shape x)];;
  let sh' := Reshape_shape (shape x) sh in
  r ← view_Buffer sh' x;
  py_assert (np_prod (shape x) =? np_prod (shape r));;
  mret r.

Definition Reshape_backward (grad_output : Buffer) : M Buffer :=
  c ← get_ctx;
  v ← lift (unpack1 (saved_tensors c));
  in_shape ← lift (as_shape v);
  view_Buffer in_shape grad_output.

Definition Transpose_forward (x : Buffer) (order : list Z) : M Buffer :=
  save_for_backward [VOrder order];;
  sh ← lift (comprehension (py_index (shape x)) order);
  ret ← new_Buffer sh;
  perm_axis x order ret.

Definition Transpose_backward (grad_output : Buffer) : M Buffer :=
  c ← get_ctx;
  let norder := argsort (ctx_order c) in
  sh ← lift (comprehension (py_index (shape grad_output)) norder);
  ret ← new_Buffer sh;
  perm_axis grad_output norder ret.

(** [enumerate(l)] *)
Definition enumerate {A : Type} (l : list A) : list (Z * A) :=
  zip (Z.of_nat <$> seq 0 (length l)) l.

Definition Slice_forward (x : Buffer) (arg : option (list (Z * Z))) : M Buffer :=
  save_for_backward [VShape (shape x)];;
  a ← lift (py_list arg);
  ret ← new_Buffer ((λ y : Z * Z, y.2 - y.1) <$> a);
  inner_slice x a ret.

Definition Slice_backward (grad_output : Buffer) : M Buffer :=
  c ← get_ctx;
  v ← lift (unpack1 (saved_tensors c));
  sh ← lift (as_shape v);
  a ← lift (py_list (ctx_arg c));
  narg ← lift (comprehension
    (λ ip : Z * (Z * Z),
       g ← py_index (shape grad_output) ip.1;
       s ← py_index sh ip.1;
       Ok (0 - ip.2.1, g + (s - ip.2.2)))
    (enumerate a));
  ret ← new_Buffer ((λ y : Z * Z, y.2 - y.1) <$> narg);
  inner_slice grad_output narg ret.

(** *** processing ops *)

Definition Matmul_forward (input weight : Buffer) : M Buffer :=
  il ← lift (py_index (shape input) (-1));
  wr ← lift (py_index (shape weight) (-2));
  py_assert (il =? wr);;
  wl ← lift (py_index (shape weight) (-1));
  ret ← new_Buffer (py_slice_0_m1 (shape input) ++ [wl]);
  save_for_backward [VBuffer input; VBuffer weight];;
  matmul input weight ret false false.

Definition Matmul_backward (grad_output : Buffer) : M (option Buffer * option Buffer) :=
  '(input, weight) ← saved_buffers;
  grad_input ← if_needs_grad 0 (
    out ← new_Buffer (shape input);
    matmul grad_output weight out false true);
  grad_weight ← if_needs_grad 1 (
    out ← new_Buffer (shape weight);
    matmul input grad_output out true false);
  mret (grad_input, grad_weight).

(** [ys,xs = ctx.stride]: an [int] cannot be unpacked. *)
Definition unpack_stride (s : Stride) : Res (Z * Z) :=
  match s with
  | stride_pair ys xs => Ok (ys, xs)
  | stride_int _ => Raise TypeError
  end.

(** [forward(ctx, x, w, stride=1, groups=1)] reads [ctx.stride] and
    [ctx.groups], never its own keyword parameters. *)
Definition Conv2D_forward (x w : Buffer) : M Buffer :=
  c ← get_ctx;
  match ctx_stride c with
  | stride_int s =>
      set_ctx (mkCtx (needs_input_grad c) (saved_tensors c)
                     (stride_pair s s) (ctx_groups c) (ctx_order c) (ctx_arg c))
  | stride_pair _ _ => mret ()
  end;;
  c ← get_ctx;
  '(cout, cin, H, W) ← lift (unpack4 (shape w));
  '(ys, xs) ← lift (unpack_stride (ctx_stride c));
  '(bs, cin_, iy, ix) ← lift (unpack4 (shape x));
  oy ← lift (py_floordiv (iy - (H - ys)) ys);
  ox ← lift (py_floordiv (ix - (W - xs)) xs);
  (if negb (cin * ctx_groups c =? cin_)
   then raise (Exception (shape x) (shape w) (cin * ctx_groups c) cin_)
   else mret ());;
  r ← lift (py_mod cout (ctx_groups c));
  py_assert (r =? 0);;
  rcout ← lift (py_floordiv cout (ctx_groups c));
  save_for_backward [VBuffer x; VBuffer w];;
  let conv_args := [H; W; ctx_groups c; rcout; cin; oy; ox; iy; ix; ys; xs; bs] in
  ret ← new_Buffer [bs; cout; oy; ox];
  conv x w ret conv_args.

Definition Conv2D_backward (grad_output : Buffer) : M (option Buffer * option Buffer) :=
  _ ← lift (unpack4 (shape grad_output));
  c ← get_ctx;
  '(x, w) ← saved_buffers;
  '(cout, cin, H, W) ← lift (unpack4 (shape w));
  '(ys, xs) ← lift (unpack_stride (ctx_stride c));
  '(bs, cin_, iy, ix) ← lift (unpack4 (shape x));
  oy ← lift (py_floordiv (iy - (H - ys)) ys);
  ox ← lift (py_floordiv (ix - (W - xs)) xs);
  py_assert (cin * ctx_groups c =? cin_);;
  r ← lift (py_mod cout (ctx_groups c));
  py_assert (r =? 0);;
  rcout ← lift (py_floordiv cout (ctx_groups c));
  let conv_args := [H; W; ctx_groups c; rcout; cin; oy; ox; iy; ix; ys; xs; bs] in
  dx ← if_needs_grad 0 (
    out ← new_Buffer [bs; cin_; iy; ix];
    convdx w grad_output out conv_args);
  dw ← if_needs_grad 1 (
    out ← new_Buffer [cout; cin; H; W];
    convdw x grad_output out conv_args);
  mret (dx, dw).

End ops_gpu.

(** ** Vocabulary of the statements *)

(** The primitive calls a program adds to the trace when run from [s]. *)
Definition new_calls {A : Type} (m : M A) (s : State) : list Call :=
  drop (length (trace s)) (trace (final m s)).

(** [b] is [out] reduce-summed to the shape [in_sh]: the buffer returned by a
    recorded call [reduce_op("out += a", out, ret)] whose output buffer
    [ret] has shape [in_sh]. *)
Definition unbroadcast_of {B : Backend} (calls : list Call)
    (out : Buffer) (in_sh : list Z) (b : Buffer) : Prop :=
  ∃ ret, shape ret = in_sh
       ∧ call_reduce_op "out += a" out ret None ∈ calls
       ∧ b = kernel (call_reduce_op "out += a" out ret None).

(** [b] is the elementwise negation of [x]: the buffer returned by a recorded
    call [unary_op('-a', x, ret)] whose output buffer has the shape of [x]. *)
Definition negation_of {B : Backend} (calls : list Call) (x b : Buffer) : Prop :=
  ∃ ret, shape ret = shape x
       ∧ call_unary_op "-a" x ret ∈ calls
       ∧ b = kernel (call_unary_op "-a" x ret).

(** A backend to run the operators on: shapes of equal rank broadcast to
    their elementwise maximum, and a kernel returns its output buffer. *)
Definition demo_broadcast (a b : list Z) : Res (list Z) :=
  if bool_decide (length a = length b) then Ok (zip_with Z.max a b)
  else Raise ValueError.
Definition demo_backend : Backend :=
  {| binary_broadcast := demo_broadcast; kernel := call_out |}.

(** A fresh context, as [Function] creates it for an operator with two
    tensor inputs, and a device on which nothing has run. *)
Definition fresh_ctx (fx fy : bool) (stride : Stride) (groups : Z) : Ctx :=
  mkCtx [fx; fy] [] stride groups [1; 0] None.
Definition fresh_state (c : Ctx) : State := mkState c 0 [].

(** [b] is the buffer a device primitive returned: the last of the recorded
    [calls], and what its kernel gave back. *)
Definition from_primitive {B : Backend} (calls : list Call) (b : Buffer) : Prop :=
  ∃ c, last calls = Some c ∧ b = kernel c.

(** The [forward] of every operator class, with its arguments. *)
Inductive Forward :=
| fwd_UnaryOp (cls : UnaryOpClass) (input : Buffer)
| fwd_Sum (input : Buffer) (axis : option (list Z))
| fwd_Max (input : Buffer) (axis : option (list Z))
| fwd_Add (x y : Buffer)
| fwd_Sub (x y : Buffer)
| fwd_Mul (x y : Buffer)
| fwd_Pow (x y : Buffer)
| fwd_Reshape (x : Buffer) (sh : list Z)
| fwd_Transpose (x : Buffer) (order : list Z)
| fwd_Slice (x : Buffer) (arg : option (list (Z * Z)))
| fwd_Matmul (input weight : Buffer)
| fwd_Conv2D (x w : Buffer).

Definition run_forward {B : Backend} (f : Forward) : M Buffer :=
  match f with
  | fwd_UnaryOp cls input => UnaryOp_forward cls input
  | fwd_Sum input axis => Sum_forward input axis
  | fwd_Max input axis => Max_forward input axis
  | fwd_Add x y => Add_forward x y
  | fwd_Sub x y => Sub_forward x y
  | fwd_Mul x y => Mul_forward x y
  | fwd_Pow x y => Pow_forward x y
  | fwd_Reshape x sh => Reshape_forward x sh
  | fwd_Transpose x order => Transpose_forward x order
  | fwd_Slice x arg => Slice_forward x arg
  | fwd_Matmul input weight => Matmul_forward input weight
  | fwd_Conv2D x w => Conv2D_forward x w
  end.

(** The operator classes with two tensor inputs. *)
Inductive TwoInput := Add | Sub | Mul | Pow | Matmul | Conv2D.

Definition forward2 {B : Backend} (op : TwoInput) : Buffer → Buffer → M Buffer :=
  match op with
  | Add => Add_forward
  | Sub => Sub_forward
  | Mul => Mul_forward
  | Pow => Pow_forward
  | Matmul => Matmul_forward
  | Conv2D => Conv2D_forward
  end.

Definition backward2 {B : Backend} (op : TwoInput)
    : Buffer → M (option Buffer * option Buffer) :=
  match op with
  | Add => Add_backward
  | Sub => Sub_backward
  | Mul => Mul_backward
  | Pow => Pow_backward
  | Matmul => Matmul_backward
  | Conv2D => Conv2D_backward
  end.

(** Output position [i] of a [backward]: [None] exactly when the flag
    [needs_input_grad[i]] is false, and a buffer of shape [sh] when it is
    true. *)
Definition grad_position (flag : bool) (sh : list Z) (g : option Buffer) : Prop :=
  (g = None ↔ flag = false) ∧ (flag = true → ∃ b, g = Some b ∧ shape b = sh).

(** The shape [sh] with each dimension listed in [axis] replaced by 1: a
    dimension [i] is listed as [i] or, counted from the end, as
    [i - len(sh)]. *)
Definition listed (n : nat) (axis : list Z) (i : nat) : Prop :=
  Z.of_nat i ∈ axis ∨ Z.of_nat i - Z.of_nat n ∈ axis.
Definition keepdims_shape (sh : list Z) (axis : list Z) : list Z :=
  imap (λ i d, if bool_decide (listed (length sh) axis i) then 1 else d) sh.

(** [axis] names dimensions of a shape of rank [n]. *)
Definition valid_axis (n : nat) (axis : list Z) : Prop :=
  Forall (λ a, - Z.of_nat n ≤ a < Z.of_nat n) axis.

(** The stride as a pair: an integer [s] stands for [(s, s)]. *)
Definition stride_as_pair (s : Stride) : Z * Z :=
  match s with
  | stride_int s => (s, s)
  | stride_pair ys xs => (ys, xs)
  end.

(** [order] is a permutation of the axes [0 .. n-1]. *)
Definition axes_permutation (n : nat) (order : list Z) : Prop :=
  order ≡ₚ Z.of_nat <$> seq 0 n.

(** [r] is [matmul(a, b, ret, ...)] with the given transposition flags,
    computed into an output buffer [ret] of shape [sh]. *)
Definition matmul_of {B : Backend} (calls : list Call) (a b : Buffer)
    (transpose_a transpose_b : bool) (sh : list Z) (r : Buffer) : Prop :=
  ∃ ret, shape ret = sh
       ∧ call_matmul a b ret transpose_a transpose_b ∈ calls
       ∧ r = kernel (call_matmul a b ret transpose_a transpose_b).

(** The [backward] of every operator class, with its gradient argument. *)
Inductive Backward :=
| bwd_UnaryOp (cls : UnaryOpClass) (grad_output : Buffer)
| bwd_Sum (grad_output : Buffer)
| bwd_Max (grad_output : Buffer)
| bwd_Add (grad_output : Buffer)
| bwd_Sub (grad_output : Buffer)
| bwd_Mul (grad_output : Buffer)
| bwd_Pow (grad_output : Buffer)
| bwd_Reshape (grad_output : Buffer)
| bwd_Transpose (grad_output : Buffer)
| bwd_Slice (grad_output : Buffer)
| bwd_Matmul (grad_output : Buffer)
| bwd_Conv2D (grad_output : Buffer).

(** What a [backward] returns, as the list of its output positions: one
    buffer for an operator with one tensor input, a pair for one with
    two. *)
Definition run_backward {B : Backend} (b : Backward) : M (list (option Buffer)) :=
  let one (m : M Buffer) : M (list (option Buffer)) :=
    (λ r, [Some r]) <$> m in
  let two (m : M (option Buffer * option Buffer)) : M (list (option Buffer)) :=
    (λ r, [r.1; r.2]) <$> m in
  match b with
  | bwd_UnaryOp cls g => one (UnaryOp_backward cls g)
  | bwd_Sum g => one (Sum_backward g)
  | bwd_Max g => one (Max_backward g)
  | bwd_Add g => two (Add_backward g)
  | bwd_Sub g => two (Sub_backward g)
  | bwd_Mul g => two (Mul_backward g)
  | bwd_Pow g => two (Pow_backward g)
  | bwd_Reshape g => one (Reshape_backward g)
  | bwd_Transpose g => one (Transpose_backward g)
  | bwd_Slice g => one (Slice_backward g)
  | bwd_Matmul g => two (Matmul_backward g)
  | bwd_Conv2D g => two (Conv2D_backward g)
  end.

(** The number of elements of a shape, as an unbounded integer. *)
Definition numel (sh : list Z) : Z := foldr Z.mul 1 sh.

(** [i] is an index into a sequence of length [n]. *)
Definition valid_index (n : nat) (i : Z) : Prop :=
  - Z.of_nat n ≤ i < Z.of_nat n.

(** * Proofs *)

Create HintDb exec discriminated.
#[local] Hint Unfold result final mbind mret fmap M_bind M_ret M_fmap
  Res_bind Res_ret Res_fmap raise lift get_ctx set_ctx py_assert
  save_for_backward needs_grad if_needs_grad new_Buffer view_Buffer
  invoke unary_op binary_op reduce_op perm_axis inner_slice matmul conv
  convdw convdx saved_shapes saved_buffers unbroadcast new_calls : exec.

#[local] Arguments np_prod : simpl never.
#[local] Arguments Reshape_shape : simpl never.

(** Symbolic execution of a monadic program. *)
Ltac exec := repeat (autounfold with exec; cbn).

(** The calls appended to a trace are the ones after its old length. *)
Ltac new_calls_simpl :=
  rewrite <- ?app_assoc; rewrite ?drop_app_length; cbn.

(** A call stands in an explicit list of calls. *)
Ltac in_calls :=
  solve [repeat first [apply list_elem_of_here | apply list_elem_of_further]].

(** [b] is what a recorded call returned: the call is read off [b], then
    its output shape and its place in the trace are checked. *)
Ltac recorded :=
  eexists; split_and!; [ | | reflexivity]; [reflexivity | in_calls].

Lemma demo_returns_out_shape : returns_out_shape demo_backend.
Proof. intros c. reflexivity. Qed.

(** ** Reductions with the default axis *)

(** C9: with the default [axis=None], [Sum.forward] and [Max.forward] raise
    (the [TypeError] of [list(None)] in [reduce_shape]) for every input and
    in every state, and they do so before any device primitive is invoked
    and before any buffer is allocated. *)
Theorem reduce_default_axis_raises {B : Backend} (input : Buffer) (st : State) :
    reduce_shape (shape input) None = Raise TypeError
  ∧ result (Sum_forward input None) st = Raise TypeError
  ∧ new_calls (Sum_forward input None) st = []
  ∧ next_cl (final (Sum_forward input None) st) = next_cl st
  ∧ result (Max_forward input None) st = Raise TypeError
  ∧ new_calls (Max_forward input None) st = []
  ∧ next_cl (final (Max_forward input None) st) = next_cl st.
Proof.
  unfold Sum_forward, Max_forward, reduce_shape. exec.
  rewrite drop_all. repeat split.
Qed.

(** ** Elementwise binary operators *)

Section binary.
Context {B : Backend}.

(** C2: the forward of Add, Sub, Mul and Pow returns a buffer whose shape is
    [binary_broadcast(x.shape, y.shape)]; when [binary_broadcast] raises, so
    does the forward, with the same exception. *)
Theorem binary_forward_shape (x y : Buffer) (st : State) :
  returns_out_shape B →
    shape <$> result (Add_forward x y) st = binary_broadcast (shape x) (shape y)
  ∧ shape <$> result (Sub_forward x y) st = binary_broadcast (shape x) (shape y)
  ∧ shape <$> result (Mul_forward x y) st = binary_broadcast (shape x) (shape y)
  ∧ shape <$> result (Pow_forward x y) st = binary_broadcast (shape x) (shape y).
Proof.
  intros HB. unfold Add_forward, Sub_forward, Mul_forward, Pow_forward. exec.
  destruct (binary_broadcast (shape x) (shape y)) as [sh|e]; cbn; [|done].
  rewrite !HB. done.
Qed.

(** What [Add.forward] and [Sub.forward] leave in [ctx]: the two input
    shapes, after what was saved before. *)
Lemma Add_forward_ctx x y st out :
  result (Add_forward x y) st = Ok out →
  ctx (final (Add_forward x y) st) =
    mkCtx (needs_input_grad (ctx st))
          (saved_tensors (ctx st) ++ [VShape (shape x); VShape (shape y)])
          (ctx_stride (ctx st)) (ctx_groups (ctx st))
          (ctx_order (ctx st)) (ctx_arg (ctx st)).
Proof.
  unfold Add_forward. exec.
  destruct (binary_broadcast (shape x) (shape y)); cbn; done.
Qed.

Lemma Sub_forward_ctx x y st out :
  result (Sub_forward x y) st = Ok out →
  ctx (final (Sub_forward x y) st) =
    mkCtx (needs_input_grad (ctx st))
          (saved_tensors (ctx st) ++ [VShape (shape x); VShape (shape y)])
          (ctx_stride (ctx st)) (ctx_groups (ctx st))
          (ctx_order (ctx st)) (ctx_arg (ctx st)).
Proof.
  unfold Sub_forward. exec.
  destruct (binary_broadcast (shape x) (shape y)); cbn; done.
Qed.

(** C1, as amended: after a forward on [x] and [y] that returned, and in any
    device state, [Add.backward] returns in position 0 [grad_output]
    unbroadcast to [x.shape] when [needs_input_grad[0]] holds and [None]
    otherwise, and in position 1 [grad_output] unbroadcast to [y.shape] when
    [needs_input_grad[1]] holds and [None] otherwise; [Sub.backward] does the
    same, except that position 1 is the unbroadcast of the elementwise
    negation of [grad_output]. *)
Theorem Add_Sub_backward_gradients (x y g : Buffer) (st : State) (f0 f1 : bool) :
  saved_tensors (ctx st) = [] →
  needs_input_grad (ctx st) = [f0; f1] →
  (∀ out st', result (Add_forward x y) st = Ok out →
     ctx st' = ctx (final (Add_forward x y) st) →
     let calls := new_calls (Add_backward g) st' in
     ∃ gx gy, result (Add_backward g) st' = Ok (gx, gy)
       ∧ (if f0 then ∃ b, gx = Some b ∧ unbroadcast_of calls g (shape x) b
          else gx = None)
       ∧ (if f1 then ∃ b, gy = Some b ∧ unbroadcast_of calls g (shape y) b
          else gy = None))
  ∧ (∀ out st', result (Sub_forward x y) st = Ok out →
     ctx st' = ctx (final (Sub_forward x y) st) →
     let calls := new_calls (Sub_backward g) st' in
     ∃ gx gy, result (Sub_backward g) st' = Ok (gx, gy)
       ∧ (if f0 then ∃ b, gx = Some b ∧ unbroadcast_of calls g (shape x) b
          else gx = None)
       ∧ (if f1 then ∃ b n, gy = Some b ∧ negation_of calls g n
                          ∧ unbroadcast_of calls n (shape y) b
          else gy = None)).
Proof.
  intros Hs Hn. split; intros out [c' n' t'] Hf; cbn.
  - rewrite (Add_forward_ctx _ _ _ _ Hf), Hs, Hn. cbn. intros ->.
    unfold Add_backward. exec.
    destruct f0, f1; exec; new_calls_simpl; do 2 eexists.
    all: split_and!; try reflexivity.
    all: eexists; split; [reflexivity|]; recorded.
  - rewrite (Sub_forward_ctx _ _ _ _ Hf), Hs, Hn. cbn. intros ->.
    unfold Sub_backward. exec.
    destruct f0, f1; exec; new_calls_simpl; do 2 eexists.
    all: split_and!; try reflexivity.
    all: try (eexists; split; [reflexivity|]; recorded).
    all: do 2 eexists; split_and!; [reflexivity | | recorded]; recorded.
Qed.

End binary.

Section binary_examples.
#[local] Existing Instance demo_backend.

Lemma binary_forward_shape_witness :
  let x := mkBuffer [2; 3] 10 in
  let y := mkBuffer [1; 3] 11 in
  let st := fresh_state (fresh_ctx true true (stride_int 1) 1) in
    shape <$> result (Add_forward x y) st = Ok [2; 3]
  ∧ shape <$> result (Sub_forward x y) st = Ok [2; 3]
  ∧ shape <$> result (Mul_forward x y) st = Ok [2; 3]
  ∧ shape <$> result (Pow_forward x y) st = Ok [2; 3].
Proof.
  exact (binary_forward_shape (B:=demo_backend) (mkBuffer [2; 3] 10)
           (mkBuffer [1; 3] 11)
           (fresh_state (fresh_ctx true true (stride_int 1) 1))
           demo_returns_out_shape).
Defined.

(** C1 as stated fails where a gradient is not needed: with
    [needs_input_grad = [False, True]] the gradient [Add.backward] returns
    for [x] is [None], not [grad_output] unbroadcast to [x.shape]. *)
Lemma Add_backward_gate_counterexample :
  result
    (Add_forward (mkBuffer [2; 3] 10) (mkBuffer [1; 3] 11);;
     Add_backward (mkBuffer [2; 3] 12))
    (fresh_state (fresh_ctx false true (stride_int 1) 1))
  = Ok (None, Some (mkBuffer [1; 3] 1)).
Proof. reflexivity. Qed.

Lemma Add_Sub_backward_gradients_witness :
  let x := mkBuffer [2; 3] 10 in
  let y := mkBuffer [1; 3] 11 in
  let g := mkBuffer [2; 3] 12 in
  let st := fresh_state (fresh_ctx true true (stride_int 1) 1) in
  let st' := final (Sub_forward x y) st in
  ∃ gx gy, result (Sub_backward g) st' = Ok (gx, gy)
    ∧ (∃ b, gx = Some b
          ∧ unbroadcast_of (new_calls (Sub_backward g) st') g [2; 3] b)
    ∧ (∃ b n, gy = Some b
          ∧ negation_of (new_calls (Sub_backward g) st') g n
          ∧ unbroadcast_of (new_calls (Sub_backward g) st') n [1; 3] b).
Proof.
  destruct (Add_Sub_backward_gradients (B:=demo_backend) (mkBuffer [2; 3] 10)
              (mkBuffer [1; 3] 11) (mkBuffer [2; 3] 12)
              (fresh_state (fresh_ctx true true (stride_int 1) 1))
              true true eq_refl eq_refl) as [_ HS].
  exact (HS _ _ eq_refl eq_refl).
Defined.

End binary_examples.

(** ** Matrix multiply and convolution *)

Section processing.
Context {B : Backend}.

(** A run of [Conv2D.forward] that passes its checks: the buffer returned
    and the state left. *)
Lemma Conv2D_forward_run x w st bs cin_ iy ix cout cin H W ys xs oy ox :
  shape x = [bs; cin_; iy; ix] →
  shape w = [cout; cin; H; W] →
  stride_as_pair (ctx_stride (ctx st)) = (ys, xs) →
  py_floordiv (iy - (H - ys)) ys = Ok oy →
  py_floordiv (ix - (W - xs)) xs = Ok ox →
  cin * ctx_groups (ctx st) = cin_ →
  py_mod cout (ctx_groups (ctx st)) = Ok 0 →
  let groups := ctx_groups (ctx st) in
  let c := call_conv x w (mkBuffer [bs; cout; oy; ox] (next_cl st))
             [H; W; groups; cout / groups; cin; oy; ox; iy; ix; ys; xs; bs] in
  Conv2D_forward x w st =
    (Ok (kernel c),
     mkState (mkCtx (needs_input_grad (ctx st))
                    (saved_tensors (ctx st) ++ [VBuffer x; VBuffer w])
                    (stride_pair ys xs) groups
                    (ctx_order (ctx st)) (ctx_arg (ctx st)))
             (S (next_cl st)) (trace st ++ [c])).
Proof.
  destruct st as [[nig saved str grp ord arg] ncl tr]. cbn.
  intros Hx Hw Hs Hoy Hox Hcin Hmod.
  assert (Hdiv : py_floordiv cout grp = Ok (cout / grp)).
  { revert Hmod. unfold py_mod, py_floordiv. by destruct (grp =? 0). }
  assert (Hcin' : (cin * grp =? cin_) = true) by by apply Z.eqb_eq.
  unfold Conv2D_forward. exec.
  destruct str as [s|ys' xs']; cbn in Hs; simplify_eq; exec.
  all: rewrite Hw, Hx; cbn; rewrite Hoy; cbn; rewrite Hox; cbn.
  all: rewrite Hcin'; cbn; rewrite Hmod; cbn; rewrite Hdiv; cbn.
  all: reflexivity.
Qed.

(** C3: for [x] of shape [(bs, cin_, iy, ix)] and [w] of shape
    [(cout, cin, H, W)] with [cin * groups == cin_] and [cout % groups == 0],
    and for the stride [(ys, xs)], an integer stride [s] standing for
    [(s, s)], [Conv2D.forward] returns a buffer of shape [(bs, cout, oy, ox)]
    where [oy] is the value of [(iy - (H - ys)) // ys] and [ox] the value of
    [(ix - (W - xs)) // xs]; [ctx.stride] is left as the pair. *)
Theorem Conv2D_forward_shape (x w : Buffer) (st : State)
    (bs cin_ iy ix cout cin H W ys xs oy ox : Z) :
  returns_out_shape B →
  shape x = [bs; cin_; iy; ix] →
  shape w = [cout; cin; H; W] →
  stride_as_pair (ctx_stride (ctx st)) = (ys, xs) →
  py_floordiv (iy - (H - ys)) ys = Ok oy →
  py_floordiv (ix - (W - xs)) xs = Ok ox →
  cin * ctx_groups (ctx st) = cin_ →
  py_mod cout (ctx_groups (ctx st)) = Ok 0 →
  ∃ b, result (Conv2D_forward x w) st = Ok b
     ∧ shape b = [bs; cout; oy; ox]
     ∧ ctx_stride (ctx (final (Conv2D_forward x w) st)) = stride_pair ys xs.
Proof.
  intros HB Hx Hw Hs Hoy Hox Hcin Hmod.
  unfold result, final.
  rewrite (Conv2D_forward_run _ _ _ _ _ _ _ _ _ _ _ _ _ _ _ Hx Hw Hs Hoy Hox Hcin Hmod).
  cbn. eexists; split_and!; [reflexivity | | reflexivity].
  by rewrite HB.
Qed.

(** Indexing from the end: [t[-1]] exists whenever [t[-2]] does. *)
Lemma py_index_neg (t : list Z) (i : Z) :
  - Z.of_nat (length t) ≤ i < 0 →
  ∃ v, py_index t i = Ok v ∧ t !! Z.to_nat (Z.of_nat (length t) + i) = Some v.
Proof.
  intros Hi. unfold py_index, norm_index.
  rewrite bool_decide_eq_false_2 by lia.
  rewrite bool_decide_eq_true_2 by lia. cbn.
  destruct (lookup_lt_is_Some_2 t (Z.to_nat (Z.of_nat (length t) + i))) as [v Hv];
    [lia|].
  exists v. by rewrite Hv.
Qed.

Lemma py_index_range (t : list Z) (i v : Z) :
  py_index t i = Ok v → - Z.of_nat (length t) ≤ i < Z.of_nat (length t).
Proof.
  unfold py_index, norm_index. repeat case_bool_decide; cbn; try done; lia.
Qed.

(** A run of [Matmul.forward] whose assertion holds. *)
Lemma Matmul_forward_run input weight st k wl :
  py_index (shape input) (-1) = Ok k →
  py_index (shape weight) (-2) = Ok k →
  py_index (shape weight) (-1) = Ok wl →
  let c := call_matmul input weight
             (mkBuffer (py_slice_0_m1 (shape input) ++ [wl]) (next_cl st))
             false false in
  Matmul_forward input weight st =
    (Ok (kernel c),
     mkState (mkCtx (needs_input_grad (ctx st))
                    (saved_tensors (ctx st) ++ [VBuffer input; VBuffer weight])
                    (ctx_stride (ctx st)) (ctx_groups (ctx st))
                    (ctx_order (ctx st)) (ctx_arg (ctx st)))
             (S (next_cl st)) (trace st ++ [c])).
Proof.
  intros Hi Hw Hl. unfold Matmul_forward. exec.
  rewrite Hi; cbn. rewrite Hw; cbn. rewrite Z.eqb_refl; cbn. rewrite Hl; cbn.
  reflexivity.
Qed.

(** C7, as amended: when [input.shape[-1] == weight.shape[-2]],
    [Matmul.forward] returns a buffer of shape
    [input.shape[:-1] + [weight.shape[-1]]]; after it, [Matmul.backward]
    returns in position 0 [matmul(grad_output, weight, transpose_b=True)]
    with input's shape when [needs_input_grad[0]] holds and [None]
    otherwise, and in position 1
    [matmul(input, grad_output, transpose_a=True)] with weight's shape when
    [needs_input_grad[1]] holds and [None] otherwise. *)
Theorem Matmul_shapes_and_gradients (input weight : Buffer) (st : State)
    (k : Z) (f0 f1 : bool) :
  returns_out_shape B →
  saved_tensors (ctx st) = [] →
  needs_input_grad (ctx st) = [f0; f1] →
  py_index (shape input) (-1) = Ok k →
  py_index (shape weight) (-2) = Ok k →
  ∃ out wl, result (Matmul_forward input weight) st = Ok out
    ∧ py_index (shape weight) (-1) = Ok wl
    ∧ shape out = (py_slice_0_m1 (shape input) ++ [wl])%list
    ∧ ∀ g st', ctx st' = ctx (final (Matmul_forward input weight) st) →
        let calls := new_calls (Matmul_backward g) st' in
        ∃ gi gw, result (Matmul_backward g) st' = Ok (gi, gw)
          ∧ (if f0 then ∃ b, gi = Some b ∧ shape b = shape input
                          ∧ matmul_of calls g weight false true (shape input) b
             else gi = None)
          ∧ (if f1 then ∃ b, gw = Some b ∧ shape b = shape weight
                          ∧ matmul_of calls input g true false (shape weight) b
             else gw = None).
Proof.
  intros HB Hs Hn Hi Hw.
  destruct (py_index_neg (shape weight) (-1)) as (wl & Hl & _).
  { apply py_index_range in Hw. lia. }
  exists (kernel (call_matmul input weight
            (mkBuffer (py_slice_0_m1 (shape input) ++ [wl]) (next_cl st))
            false false)), wl.
  unfold result, final. rewrite (Matmul_forward_run _ _ _ _ _ Hi Hw Hl). cbn.
  split_and!; [reflexivity | exact Hl | by rewrite HB |].
  rewrite Hs, Hn. cbn. intros g [c' n' t']. cbn. intros ->.
  unfold Matmul_backward. exec.
  destruct f0, f1; exec; new_calls_simpl; do 2 eexists.
  all: split_and!; try reflexivity.
  all: eexists; split_and!; [reflexivity | by rewrite HB | recorded].
Qed.

End processing.

Section processing_examples.
#[local] Existing Instance demo_backend.

Lemma Conv2D_forward_shape_witness :
  ∃ b, result (Conv2D_forward (mkBuffer [2; 6; 7; 9] 10) (mkBuffer [4; 3; 3; 3] 11))
         (fresh_state (fresh_ctx true true (stride_int 2) 2)) = Ok b
     ∧ shape b = [2; 4; 3; 4]
     ∧ ctx_stride (ctx (final
         (Conv2D_forward (mkBuffer [2; 6; 7; 9] 10) (mkBuffer [4; 3; 3; 3] 11))
         (fresh_state (fresh_ctx true true (stride_int 2) 2)))) = stride_pair 2 2.
Proof.
  exact (Conv2D_forward_shape (B:=demo_backend)
           (mkBuffer [2; 6; 7; 9] 10) (mkBuffer [4; 3; 3; 3] 11)
           (fresh_state (fresh_ctx true true (stride_int 2) 2))
           2 6 7 9 4 3 3 3 2 2 3 4
           demo_returns_out_shape eq_refl eq_refl eq_refl eq_refl eq_refl
           eq_refl eq_refl).
Defined.

(** C7 as stated fails where a gradient is not needed: with
    [needs_input_grad = [True, False]] the [grad_weight] that
    [Matmul.backward] returns is [None]. *)
Lemma Matmul_backward_gate_counterexample :
  result
    (Matmul_forward (mkBuffer [5; 2; 3] 10) (mkBuffer [3; 4] 11);;
     Matmul_backward (mkBuffer [5; 2; 4] 12))
    (fresh_state (fresh_ctx true false (stride_int 1) 1))
  = Ok (Some (mkBuffer [5; 2; 3] 1), None).
Proof. reflexivity. Qed.

Lemma Matmul_shapes_and_gradients_witness :
  ∃ out wl,
    result (Matmul_forward (mkBuffer [5; 2; 3] 10) (mkBuffer [3; 4] 11))
      (fresh_state (fresh_ctx true true (stride_int 1) 1)) = Ok out
    ∧ py_index [3; 4] (-1) = Ok wl
    ∧ shape out = [5; 2; wl].
Proof.
  destruct (Matmul_shapes_and_gradients (B:=demo_backend)
              (mkBuffer [5; 2; 3] 10) (mkBuffer [3; 4] 11)
              (fresh_state (fresh_ctx true true (stride_int 1) 1)) 3 true true
              demo_returns_out_shape eq_refl eq_refl eq_refl eq_refl)
    as (out & wl & Hr & Hl & Hsh & _).
  exists out, wl. split_and!; [exact Hr | exact Hl | exact Hsh].
Defined.

End processing_examples.

(** ** The gradient gate of the two-input operators *)

(** Case analysis on a run that is known to have returned: every test the
    program made is decided, the branches that raise are discarded. *)
Ltac decide_run H :=
  repeat (cbn in H;
          match type of H with
          | context [match ?e with _ => _ end] =>
              lazymatch e with
              | context [match _ with _ => _ end] => fail
              | _ => destruct e eqn:?
              end
          end);
  cbn in H; try discriminate H.

Section gate.
Context {B : Backend}.

Lemma grad_position_None sh : grad_position false sh None.
Proof. split; [done | intros [=]]. Qed.

Lemma grad_position_Some sh b : shape b = sh → grad_position true sh (Some b).
Proof. intros Hb. split; [split; intros [=] | intros _; by exists b]. Qed.

Lemma unpack4_Ok {A : Type} (l : list A) a b c d :
  unpack4 l = Ok (a, b, c, d) → l = [a; b; c; d].
Proof.
  destruct l as [|? [|? [|? [|? [|? ?]]]]]; cbn; intros [=]. by subst.
Qed.

(** [Conv2D.forward] returns only when all its checks passed. *)
Lemma Conv2D_forward_inv x w st out :
  result (Conv2D_forward x w) st = Ok out →
  ∃ bs cin_ iy ix cout cin H W ys xs oy ox,
    shape x = [bs; cin_; iy; ix] ∧ shape w = [cout; cin; H; W]
    ∧ stride_as_pair (ctx_stride (ctx st)) = (ys, xs)
    ∧ py_floordiv (iy - (H - ys)) ys = Ok oy
    ∧ py_floordiv (ix - (W - xs)) xs = Ok ox
    ∧ cin * ctx_groups (ctx st) = cin_
    ∧ py_mod cout (ctx_groups (ctx st)) = Ok 0.
Proof.
  destruct st as [[nig saved str grp ord arg] ncl tr].
  unfold Conv2D_forward. exec. intros Hf. decide_run Hf.
  all: repeat match goal with
              | H : unpack4 _ = Ok _ |- _ => apply unpack4_Ok in H
              | H : negb _ = false |- _ => apply negb_false_iff, Z.eqb_eq in H
              | H : (_ =? 0) = true |- _ => apply Z.eqb_eq in H
              end; subst.
  all: by repeat eexists.
Qed.

(** C10: for each of Add, Sub, Mul, Pow, Matmul and Conv2D, after a forward
    on the inputs [x] and [y] that returned, the backward on a gradient of
    the output's shape returns a pair whose position [i] is [None] if and
    only if [ctx.needs_input_grad[i]] is false, and is a buffer with the
    shape of input [i] when the flag is true. *)
Theorem backward_gate (op : TwoInput) (x y g out : Buffer)
    (st st' : State) (f0 f1 : bool) :
  returns_out_shape B →
  saved_tensors (ctx st) = [] →
  needs_input_grad (ctx st) = [f0; f1] →
  result (forward2 op x y) st = Ok out →
  ctx st' = ctx (final (forward2 op x y) st) →
  shape g = shape out →
  ∃ gx gy, result (backward2 op g) st' = Ok (gx, gy)
    ∧ grad_position f0 (shape x) gx
    ∧ grad_position f1 (shape y) gy.
Proof.
  intros HB Hs Hn Hf Hc Hg.
  destruct st' as [c' n' t']; cbn in Hc.
  destruct op; cbn [forward2 backward2] in *.
  6:{ destruct (Conv2D_forward_inv _ _ _ _ Hf)
        as (bs & cin_ & iy & ix & cout & cin & H & W & ys & xs & oy & ox
            & Hx & Hw & Hstr & Hoy & Hox & Hcin & Hmod).
      revert Hf Hc. unfold result, final.
      rewrite (Conv2D_forward_run _ _ _ _ _ _ _ _ _ _ _ _ _ _ _
                 Hx Hw Hstr Hoy Hox Hcin Hmod).
      cbn. rewrite Hs, Hn. cbn. intros [= <-] ->.
      rewrite HB in Hg. cbn in Hg.
      assert (Hdiv : py_floordiv cout (ctx_groups (ctx st))
                     = Ok (cout / ctx_groups (ctx st))).
      { revert Hmod. unfold py_mod, py_floordiv.
        by destruct (ctx_groups (ctx st) =? 0). }
      apply Z.eqb_eq in Hcin.
      unfold Conv2D_backward. exec. rewrite Hg, Hw, Hx. cbn.
      rewrite Hoy; cbn. rewrite Hox; cbn. rewrite Hcin; cbn.
      rewrite Hmod; cbn. rewrite Hdiv; cbn.
      destruct f0, f1; exec.
      all: do 2 eexists; split_and!; [reflexivity | ..].
      all: first [apply grad_position_None
                 | apply grad_position_Some; by rewrite HB]. }
  all: destruct st as [[nig saved str grp ord arg] ncl tr];
       cbn in Hs, Hn; subst saved nig.
  all: unfold Add_forward, Sub_forward, Mul_forward, Pow_forward,
         Matmul_forward in *;
       revert Hf Hc; exec; intros Hf Hc; decide_run Hf; subst c'.
  all: unfold Add_backward, Sub_backward, Mul_backward, Pow_backward,
         Matmul_backward; exec; destruct f0, f1; exec.
  all: do 2 eexists; split_and!; [reflexivity | ..].
  all: first [apply grad_position_None
             | apply grad_position_Some; by rewrite HB].
Qed.

End gate.

Section gate_examples.
#[local] Existing Instance demo_backend.

Lemma backward_gate_witness :
  ∃ gx gy,
    result (backward2 Conv2D (mkBuffer [2; 4; 3; 4] 20))
      (final (Conv2D_forward (mkBuffer [2; 6; 7; 9] 10) (mkBuffer [4; 3; 3; 3] 11))
             (fresh_state (fresh_ctx true false (stride_int 2) 2)))
    = Ok (gx, gy)
    ∧ grad_position true [2; 6; 7; 9] gx
    ∧ grad_position false [4; 3; 3; 3] gy.
Proof.
  exact (backward_gate (B:=demo_backend) Conv2D
           (mkBuffer [2; 6; 7; 9] 10) (mkBuffer [4; 3; 3; 3] 11)
           (mkBuffer [2; 4; 3; 4] 20) (mkBuffer [2; 4; 3; 4] 0)
           (fresh_state (fresh_ctx true false (stride_int 2) 2))
           (final (Conv2D_forward (mkBuffer [2; 6; 7; 9] 10) (mkBuffer [4; 3; 3; 3] 11))
                  (fresh_state (fresh_ctx true false (stride_int 2) 2)))
           true false
           demo_returns_out_shape eq_refl eq_refl eq_refl eq_refl eq_refl).
Defined.

End gate_examples.

(** ** Where a forward result comes from, and how a forward fails *)

(** Case analysis on every test of the program in the goal, innermost
    first. *)
Ltac decide_goal :=
  repeat (cbn;
          match goal with
          | |- context [match ?e with _ => _ end] =>
              lazymatch e with
              | context [match _ with _ => _ end] => fail
              | _ => destruct e eqn:?
              end
          end);
  cbn.

Section origin.
Context {B : Backend}.

(** A requested shape without [-1] is taken as it is. *)
Lemma Reshape_shape_explicit (x_shape sh : list Z) :
  -1 ∉ sh → Reshape_shape x_shape sh = sh.
Proof.
  unfold Reshape_shape.
  generalize (np_floordiv (wrap64 (- np_prod x_shape)) (np_prod sh)).
  intros v. induction sh as [|s sh IH]; [done|].
  intros Hs. apply not_elem_of_cons in Hs as [Hne Hs]. cbn.
  rewrite (proj2 (Z.eqb_neq s (-1))) by done.
  f_equal. by apply IH.
Qed.

(** C5, as amended: whenever the forward of an operator class other than
    Reshape returns a buffer, that buffer is what the last device primitive
    it invoked returned; [Reshape.forward] invokes no primitive and returns
    a new buffer of the requested shape (each [-1] replaced by the inferred
    dimension, the shape itself when it has no [-1]) on the device memory of
    its input, with as many elements as the input. *)
Theorem forward_result_origin (f : Forward) (st : State) (b : Buffer) :
  result (run_forward f) st = Ok b →
  match f with
  | fwd_Reshape x sh =>
      new_calls (run_forward f) st = []
      ∧ b = mkBuffer (Reshape_shape (shape x) sh) (cl x)
      ∧ (-1 ∉ sh → shape b = sh)
      ∧ np_prod (shape b) = np_prod (shape x)
  | _ => from_primitive (new_calls (run_forward f) st) b
  end.
Proof.
  destruct st as [[nig saved str grp ord arg] ncl tr].
  destruct f; cbn [run_forward].
  8:{ unfold Reshape_forward. exec.
      destruct (np_prod (shape x) =? np_prod (Reshape_shape (shape x) sh))
        eqn:Hprod; cbn; intros Hf; [|discriminate Hf].
      injection Hf as <-. apply Z.eqb_eq in Hprod. rewrite drop_all. cbn.
      split_and!; [done | done | | done].
      intros Hsh. by apply Reshape_shape_explicit. }
  all: unfold UnaryOp_forward, Sum_forward, Max_forward, Add_forward,
         Sub_forward, Mul_forward, Pow_forward,
         Transpose_forward, Slice_forward, Matmul_forward, Conv2D_forward,
         from_primitive; exec; decide_goal; intros Hf; try discriminate Hf.
  all: try (injection Hf as <-); new_calls_simpl; rewrite ?drop_all.
  all: by eexists.
Qed.

(** C4, as amended: no forward handles an error (one raised by
    [binary_broadcast] leaves Add, Sub, Mul and Pow unchanged) and the unary
    forwards have no error path of their own, but the module has error
    paths: [Conv2D.forward] raises its [Exception], before any primitive is
    invoked, when [cin * groups != cin_], and [AssertionError] when
    [cout % groups != 0]; [Matmul.forward] raises [AssertionError] when
    [input.shape[-1] != weight.shape[-2]]; [Reshape.forward] raises
    [AssertionError] when the element counts of [x.shape] and of the
    requested shape differ. *)
Theorem forward_error_paths :
    (∀ cls input st, ∃ b, result (UnaryOp_forward cls input) st = Ok b)
  ∧ (∀ x y st e, binary_broadcast (shape x) (shape y) = Raise e →
       result (Add_forward x y) st = Raise e
       ∧ result (Sub_forward x y) st = Raise e
       ∧ result (Mul_forward x y) st = Raise e
       ∧ result (Pow_forward x y) st = Raise e)
  ∧ (∀ x w st bs cin_ iy ix cout cin H W ys xs oy ox,
       shape x = [bs; cin_; iy; ix] →
       shape w = [cout; cin; H; W] →
       stride_as_pair (ctx_stride (ctx st)) = (ys, xs) →
       py_floordiv (iy - (H - ys)) ys = Ok oy →
       py_floordiv (ix - (W - xs)) xs = Ok ox →
       cin * ctx_groups (ctx st) ≠ cin_ →
       result (Conv2D_forward x w) st
         = Raise (Exception (shape x) (shape w) (cin * ctx_groups (ctx st)) cin_)
       ∧ new_calls (Conv2D_forward x w) st = [])
  ∧ (∀ x w st bs cin_ iy ix cout cin H W ys xs oy ox r,
       shape x = [bs; cin_; iy; ix] →
       shape w = [cout; cin; H; W] →
       stride_as_pair (ctx_stride (ctx st)) = (ys, xs) →
       py_floordiv (iy - (H - ys)) ys = Ok oy →
       py_floordiv (ix - (W - xs)) xs = Ok ox →
       cin * ctx_groups (ctx st) = cin_ →
       py_mod cout (ctx_groups (ctx st)) = Ok r →
       r ≠ 0 →
       result (Conv2D_forward x w) st = Raise AssertionError)
  ∧ (∀ input weight st a b,
       py_index (shape input) (-1) = Ok a →
       py_index (shape weight) (-2) = Ok b →
       a ≠ b →
       result (Matmul_forward input weight) st = Raise AssertionError)
  ∧ (∀ x sh st,
       -1 ∉ sh →
       np_prod (shape x) ≠ np_prod sh →
       result (Reshape_forward x sh) st = Raise AssertionError).
Proof.
  split_and!.
  - intros cls input st. unfold UnaryOp_forward. exec. by eexists.
  - intros x y st e He.
    unfold Add_forward, Sub_forward, Mul_forward, Pow_forward. exec.
    by rewrite He.
  - intros x w [[nig saved str grp ord arg] ncl tr]
      bs cin_ iy ix cout cin H W ys xs oy ox. cbn.
    intros Hx Hw Hs Hoy Hox Hne. apply Z.eqb_neq in Hne.
    unfold Conv2D_forward. exec.
    destruct str as [s|ys' xs']; cbn in Hs; simplify_eq; exec.
    all: rewrite Hw, Hx; cbn; rewrite Hoy; cbn; rewrite Hox; cbn.
    all: rewrite Hne; cbn; by rewrite drop_all.
  - intros x w [[nig saved str grp ord arg] ncl tr]
      bs cin_ iy ix cout cin H W ys xs oy ox r. cbn.
    intros Hx Hw Hs Hoy Hox Hcin Hmod Hr.
    apply Z.eqb_eq in Hcin. apply Z.eqb_neq in Hr.
    unfold Conv2D_forward. exec.
    destruct str as [s|ys' xs']; cbn in Hs; simplify_eq; exec.
    all: rewrite Hw, Hx; cbn; rewrite Hoy; cbn; rewrite Hox; cbn.
    all: rewrite Hcin; cbn; rewrite Hmod; cbn; by rewrite Hr.
  - intros input weight st a b Ha Hb Hne. apply Z.eqb_neq in Hne.
    unfold Matmul_forward. exec.
    rewrite Ha; cbn. rewrite Hb; cbn. by rewrite Hne.
  - intros x sh st Hsh Hne. apply Z.eqb_neq in Hne.
    unfold Reshape_forward. exec.
    rewrite (Reshape_shape_explicit _ _ Hsh). by rewrite Hne.
Qed.

End origin.

Section origin_examples.
#[local] Existing Instance demo_backend.

(** C5 as stated fails on Reshape: its forward returns a buffer although it
    invoked no primitive. *)
Lemma Reshape_forward_origin_counterexample :
    result (run_forward (fwd_Reshape (mkBuffer [2; 3] 10) [3; -1]))
      (fresh_state (fresh_ctx true true (stride_int 1) 1))
    = Ok (mkBuffer [3; 2] 10)
  ∧ new_calls (run_forward (fwd_Reshape (mkBuffer [2; 3] 10) [3; -1]))
      (fresh_state (fresh_ctx true true (stride_int 1) 1)) = []
  ∧ ¬ from_primitive
        (new_calls (run_forward (fwd_Reshape (mkBuffer [2; 3] 10) [3; -1]))
           (fresh_state (fresh_ctx true true (stride_int 1) 1)))
        (mkBuffer [3; 2] 10).
Proof.
  split_and!; [reflexivity | reflexivity |].
  intros (c & Hc & _). discriminate Hc.
Qed.

Lemma forward_result_origin_witness :
  from_primitive
    (new_calls (run_forward (fwd_Transpose (mkBuffer [2; 3; 5] 10) [2; 0; 1]))
       (fresh_state (fresh_ctx true true (stride_int 1) 1)))
    (mkBuffer [5; 2; 3] 0).
Proof.
  exact (forward_result_origin (B:=demo_backend)
           (fwd_Transpose (mkBuffer [2; 3; 5] 10) [2; 0; 1])
           (fresh_state (fresh_ctx true true (stride_int 1) 1))
           (mkBuffer [5; 2; 3] 0) eq_refl).
Defined.

(** C4 as stated fails on [Conv2D.forward]: with three input channels and
    weights for two, it raises its [Exception]. *)
Lemma Conv2D_forward_raises_counterexample :
  result (run_forward (fwd_Conv2D (mkBuffer [1; 3; 7; 7] 10) (mkBuffer [4; 2; 3; 3] 11)))
    (fresh_state (fresh_ctx true true (stride_int 1) 1))
  = Raise (Exception [1; 3; 7; 7] [4; 2; 3; 3] 2 3).
Proof. reflexivity. Qed.

Lemma forward_error_paths_witness :
    result (Matmul_forward (mkBuffer [5; 2; 3] 10) (mkBuffer [4; 6] 11))
      (fresh_state (fresh_ctx true true (stride_int 1) 1))
    = Raise AssertionError
  ∧ result (Reshape_forward (mkBuffer [2; 3] 10) [4; 2])
      (fresh_state (fresh_ctx true true (stride_int 1) 1))
    = Raise AssertionError.
Proof.
  destruct (forward_error_paths (B:=demo_backend)) as (_ & _ & _ & _ & HM & HR).
  split.
  - apply (HM (mkBuffer [5; 2; 3] 10) (mkBuffer [4; 6] 11) _ 3 4);
      [reflexivity | reflexivity | discriminate].
  - apply (HR (mkBuffer [2; 3] 10) [4; 2]).
    + intros Hin. repeat (apply elem_of_cons in Hin as [Hin|Hin]; [discriminate|]).
      by apply elem_of_nil in Hin.
    + discriminate.
Defined.

End origin_examples.

(** ** Reductions keep the rank *)

Section reduce.
Context {B : Backend}.

(** A valid index and the position it denotes. *)
Lemma norm_index_valid (n : nat) (i : Z) :
  - Z.of_nat n ≤ i < Z.of_nat n →
  ∃ j, norm_index n i = Ok j ∧ (j < n)%nat
     ∧ (Z.of_nat j = i ∨ Z.of_nat j - Z.of_nat n = i).
Proof.
  intros Hi. unfold norm_index. case_bool_decide.
  - exists (Z.to_nat i). split_and!; [done | lia | left; lia].
  - rewrite bool_decide_eq_true_2 by lia.
    exists (Z.to_nat (Z.of_nat n + i)). split_and!; [done | lia | right; lia].
Qed.

(** The fancy-index assignment of numpy sets exactly the listed positions. *)
Lemma np_setitem_listed (idx : list Z) (a : list Z) :
  valid_axis (length a) idx →
  np_setitem a idx 1
  = Ok (imap (λ i d, if bool_decide (listed (length a) idx i) then 1 else d) a).
Proof.
  revert a. induction idx as [|i idx IH]; intros a Hv; cbn.
  - f_equal. apply list_eq. intros k. rewrite list_lookup_imap.
    destruct (a !! k); cbn; [|done].
    rewrite bool_decide_eq_false_2; [done|].
    unfold listed. intros [H|H]; by apply elem_of_nil in H.
  - apply Forall_cons in Hv as [Hi Hv].
    destruct (norm_index_valid _ _ Hi) as (j & -> & Hj & Hji). cbn.
    rewrite IH by (by rewrite length_insert).
    f_equal. apply list_eq. intros k. rewrite !list_lookup_imap, length_insert.
    destruct (decide (j = k)) as [->|Hne].
    + rewrite list_lookup_insert_eq by done.
      destruct (lookup_lt_is_Some_2 a k Hj) as [d ->]. cbn.
      rewrite (bool_decide_eq_true_2 (listed (length a) (i :: idx) k)).
      * by case_bool_decide.
      * unfold listed. destruct Hji as [<-|<-]; [left|right]; apply list_elem_of_here.
    + rewrite list_lookup_insert_ne by done.
      destruct (a !! k) as [d|] eqn:Hk; cbn; [|done].
      apply lookup_lt_Some in Hk.
      rewrite (bool_decide_ext (listed (length a) idx k)
                 (listed (length a) (i :: idx) k)); [done|].
      unfold listed. rewrite !elem_of_cons. split; [tauto|].
      intros [[Hki|?]|[Hki|?]]; [|tauto| |tauto]; exfalso; lia.
Qed.

(** C6: for every axis list that names dimensions of the input,
    [Sum.forward] and [Max.forward] return a buffer whose shape is the input
    shape with each dimension listed in [axis] replaced by 1 and all other
    dimensions unchanged. *)
Theorem reduce_forward_keepdims (input : Buffer) (axis : list Z) (st : State) :
  returns_out_shape B →
  valid_axis (length (shape input)) axis →
    (∃ b, result (Sum_forward input (Some axis)) st = Ok b
        ∧ shape b = keepdims_shape (shape input) axis)
  ∧ (∃ b, result (Max_forward input (Some axis)) st = Ok b
        ∧ shape b = keepdims_shape (shape input) axis).
Proof.
  intros HB Hv.
  unfold Sum_forward, Max_forward, reduce_shape. exec.
  rewrite (np_setitem_listed _ _ Hv). cbn.
  split; eexists; (split; [reflexivity|]); by rewrite HB.
Qed.

End reduce.

Section reduce_examples.
#[local] Existing Instance demo_backend.

Lemma reduce_forward_keepdims_witness :
    (∃ b, result (Sum_forward (mkBuffer [4; 3; 7; 5] 10) (Some [1; -1]))
            (fresh_state (fresh_ctx true true (stride_int 1) 1)) = Ok b
        ∧ shape b = [4; 1; 7; 1])
  ∧ (∃ b, result (Max_forward (mkBuffer [4; 3; 7; 5] 10) (Some [1; -1]))
            (fresh_state (fresh_ctx true true (stride_int 1) 1)) = Ok b
        ∧ shape b = [4; 1; 7; 1]).
Proof.
  apply (reduce_forward_keepdims (B:=demo_backend) (mkBuffer [4; 3; 7; 5] 10)
           [1; -1] (fresh_state (fresh_ctx true true (stride_int 1) 1))
           demo_returns_out_shape).
  unfold valid_axis. repeat (apply Forall_cons; split; [cbn; lia|]).
  apply Forall_nil_2.
Defined.

End reduce_examples.

(** ** Transpose and its inverse permutation *)

#[local] Arguments argsort : simpl never.

#[local] Instance key_le_total : Total key_le.
Proof. intros p q. unfold key_le. lia. Qed.

Lemma key_le_fst (p q : Z * nat) : key_le p q → p.1 ≤ q.1.
Proof. unfold key_le. lia. Qed.

(** Equal keys keep the order of their indices. *)
Example argsort_ties :
  argsort [1; 0; 0] = [1; 2; 0] ∧ argsort [3; 1; 3; 1; 0; 3] = [4; 1; 3; 0; 2; 5].
Proof. split; reflexivity. Qed.

(** A comprehension returns exactly when every element expression does. *)
Lemma comprehension_Forall2 {A C : Type} (f : A → Res C) (l : list A) (r : list C) :
  comprehension f l = Ok r ↔ Forall2 (λ a b, f a = Ok b) l r.
Proof.
  revert r. induction l as [|a l IH]; intros r; cbn.
  - split; [intros [= <-]; constructor | by intros ->%Forall2_nil_inv_l].
  - destruct (f a) as [b|e] eqn:Hf; cbn.
    + destruct (comprehension f l) as [bs|e] eqn:Hc; cbn.
      * split.
        -- intros [= <-]. constructor; [done | by apply IH].
        -- intros (b' & bs' & Hb & Hbs & ->)%Forall2_cons_inv_l.
           apply IH in Hbs. congruence.
      * split; [done|].
        intros (b' & bs' & Hb & Hbs & ->)%Forall2_cons_inv_l.
        apply IH in Hbs. congruence.
    + split; [done|].
      intros (b' & bs' & Hb & Hbs & ->)%Forall2_cons_inv_l. congruence.
Qed.

Lemma comprehension_total {A C : Type} (f : A → Res C) (l : list A) :
  Forall (λ a, ∃ b, f a = Ok b) l → ∃ r, comprehension f l = Ok r.
Proof.
  induction 1 as [|a l [b Hb] _ [r Hr]]; cbn; [by eexists|].
  rewrite Hb; cbn. rewrite Hr; cbn. by eexists.
Qed.

(** [t[j]] for a position [j] of the tuple. *)
Lemma py_index_nat (t : list Z) (j : nat) (v : Z) :
  t !! j = Some v → py_index t (Z.of_nat j) = Ok v.
Proof.
  intros Hj. pose proof (lookup_lt_Some _ _ _ Hj).
  unfold py_index, norm_index. rewrite bool_decide_eq_true_2 by lia. cbn.
  by rewrite Nat2Z.id, Hj.
Qed.

Lemma Sorted_seq_Z (j n : nat) : Sorted Z.le (Z.of_nat <$> seq j n).
Proof.
  revert j. induction n as [|n IH]; intros j; cbn; constructor; [apply IH|].
  destruct n; cbn; constructor. lia.
Qed.

(** On a permutation of the axes, [argsort] is the inverse permutation:
    its entry [j] is the position at which [order] holds [j]. *)
Lemma argsort_inverse (n : nat) (order : list Z) :
  axes_permutation n order →
  length (argsort order) = n
  ∧ ∀ j i, argsort order !! j = Some i →
      ∃ p : nat, i = Z.of_nat p ∧ order !! p = Some (Z.of_nat j).
Proof.
  intros Hp. pose proof (Permutation_length Hp) as Hlen.
  rewrite length_fmap, length_seq in Hlen.
  unfold argsort.
  set (ps := merge_sort key_le (zip order (seq 0 (length order)))).
  assert (Hperm : ps ≡ₚ zip order (seq 0 (length order)))
    by apply merge_sort_Permutation.
  assert (Hkeys : ps.*1 = Z.of_nat <$> seq 0 n).
  { apply (Sorted_unique Z.le).
    - apply (Sorted_fmap _ key_le);
        [apply key_le_fst | apply Sorted_merge_sort, _].
    - apply Sorted_seq_Z.
    - rewrite Hperm, fst_zip by (by rewrite length_seq). done. }
  assert (Hpos : Forall (λ p : Z * nat, order !! p.2 = Some p.1) ps).
  { rewrite Hperm. apply Forall_lookup. intros i [k p].
    intros [Hk [-> _]%lookup_seq]%lookup_zip_Some. done. }
  split.
  - rewrite length_fmap, <- (length_fmap fst), Hkeys, length_fmap.
    apply length_seq.
  - intros j i. rewrite list_lookup_fmap.
    destruct (ps !! j) as [[k p]|] eqn:Hj; cbn; [|done]. intros [= <-].
    exists p. split; [done|].
    rewrite Forall_lookup in Hpos. specialize (Hpos _ _ Hj). cbn in Hpos.
    assert (ps.*1 !! j = Some k) as Hk by (by rewrite list_lookup_fmap, Hj).
    rewrite Hkeys, list_lookup_fmap in Hk.
    destruct (seq 0 n !! j) as [j'|] eqn:Hs; cbn in Hk; [|done].
    apply lookup_seq in Hs as [-> _]. by simplify_eq.
Qed.

Section transpose.
Context {B : Backend}.

(** C8: for every permutation [order] of the axes of [x], the forward
    returns, [order] indexed by [argsort(order)] is the identity (it is the
    inverse permutation), and the backward, on a gradient of the forward
    output's shape, permutes it by [argsort(order)] and returns a buffer of
    exactly the shape of [x]. *)
Theorem Transpose_backward_inverts (x : Buffer) (order : list Z) (st : State) :
  returns_out_shape B →
  axes_permutation (length (shape x)) order →
  ctx_order (ctx st) = order →
  ∃ out, result (Transpose_forward x order) st = Ok out
    ∧ comprehension (py_index order) (argsort order)
      = Ok (Z.of_nat <$> seq 0 (length (shape x)))
    ∧ ∀ g st', shape g = shape out →
        ctx st' = ctx (final (Transpose_forward x order) st) →
        ∃ b ret, result (Transpose_backward g) st' = Ok b
          ∧ shape b = shape x
          ∧ b = kernel (call_perm_axis g (argsort order) ret)
          ∧ last (new_calls (Transpose_backward g) st')
            = Some (call_perm_axis g (argsort order) ret).
Proof.
  intros HB Hp Hord.
  destruct (argsort_inverse _ _ Hp) as [Hlen Hinv].
  pose proof (Permutation_length Hp) as Hlo.
  rewrite length_fmap, length_seq in Hlo.
  destruct (comprehension_total (py_index (shape x)) order) as [fsh Hfsh].
  { apply Forall_forall. intros i Hi. rewrite Hp in Hi.
    apply list_elem_of_fmap in Hi as (k & -> & Hk).
    apply elem_of_seq in Hk.
    destruct (lookup_lt_is_Some_2 (shape x) k) as [v Hv]; [lia|].
    exists v. by apply py_index_nat. }
  pose proof Hfsh as Hfwd. apply comprehension_Forall2 in Hfwd.
  pose proof (Forall2_length _ _ _ Hfwd) as Hlf.
  destruct st as [[nig saved str grp ord arg] ncl tr]. cbn in Hord. subst ord.
  eexists. split_and!.
  - unfold Transpose_forward. exec. rewrite Hfsh. cbn. reflexivity.
  - apply comprehension_Forall2, Forall2_same_length_lookup_2.
    { by rewrite Hlen, length_fmap, length_seq. }
    intros j i v Hi Hv. destruct (Hinv _ _ Hi) as (p & -> & Hpj).
    rewrite list_lookup_fmap in Hv.
    destruct (seq 0 (length (shape x)) !! j) as [j'|] eqn:Hs; [|done].
    apply lookup_seq in Hs as [-> _]. cbn in Hv. simplify_eq.
    by apply py_index_nat.
  - rewrite HB. cbn. intros g [c' n' t'] Hg. cbn.
    unfold final, Transpose_forward. exec. rewrite Hfsh. cbn. intros ->.
    assert (Hbwd : comprehension (py_index (shape g)) (argsort order)
                   = Ok (shape x)).
    { apply comprehension_Forall2, Forall2_same_length_lookup_2; [done|].
      intros j i v Hi Hv. destruct (Hinv _ _ Hi) as (p & -> & Hpj).
      rewrite Hg.
      destruct (lookup_lt_is_Some_2 fsh p) as [u Hu].
      { rewrite <- Hlf. by apply lookup_lt_Some in Hpj. }
      rewrite (py_index_nat _ _ _ Hu). f_equal.
      pose proof (Forall2_lookup_lr _ _ _ _ _ _ Hfwd Hpj Hu) as Hx.
      cbn in Hx. rewrite (py_index_nat _ _ _ Hv) in Hx. by simplify_eq. }
    unfold Transpose_backward. exec. rewrite Hbwd. cbn.
    do 2 eexists. split_and!; [reflexivity | by rewrite HB | reflexivity |].
    new_calls_simpl. reflexivity.
Qed.

End transpose.

Section transpose_examples.
#[local] Existing Instance demo_backend.

Lemma Transpose_backward_inverts_witness :
  ∃ out, result (Transpose_forward (mkBuffer [2; 3; 5] 10) [2; 0; 1])
           (mkState (mkCtx [true] [] (stride_int 1) 1 [2; 0; 1] None) 0 [])
         = Ok out
    ∧ comprehension (py_index [2; 0; 1]) (argsort [2; 0; 1]) = Ok [0; 1; 2].
Proof.
  destruct (Transpose_backward_inverts (B:=demo_backend)
              (mkBuffer [2; 3; 5] 10) [2; 0; 1]
              (mkState (mkCtx [true] [] (stride_int 1) 1 [2; 0; 1] None) 0 [])
              demo_returns_out_shape)
    as (out & Hf & Hi & _).
  - unfold axes_permutation. cbn.
    change [2; 0; 1] with ([2] ++ [0; 1])%list.
    apply Permutation_app_comm.
  - reflexivity.
  - exists out. split; [exact Hf | exact Hi].
Defined.

End transpose_examples.

(** ** The other backward rules return a gradient of the input's shape *)

Section input_shaped.
Context {B : Backend}.

(** X1: after the forward of a unary operator (ReLU, Log, Exp) or of Sum on
    [input], the backward returns a buffer of the shape of [input]; for Sum
    it is the output buffer allocated with the saved shape, which
    [binary_op('a', grad_output, ret, ret)] broadcasts into. *)
Theorem unary_Sum_backward_shape (cls : UnaryOpClass) (input g : Buffer)
    (axis : list Z) (st st' : State) :
  returns_out_shape B →
  saved_tensors (ctx st) = [] →
    (ctx st' = ctx (final (UnaryOp_forward cls input) st) →
     ∃ b, result (UnaryOp_backward cls g) st' = Ok b ∧ shape b = shape input)
  ∧ (valid_axis (length (shape input)) axis →
     ctx st' = ctx (final (Sum_forward input (Some axis)) st) →
     ∃ b, result (Sum_backward g) st' = Ok b ∧ shape b = shape input).
Proof.
  intros HB Hs. destruct st' as [c' n' t']. cbn. split.
  - unfold UnaryOp_forward. exec. rewrite Hs. cbn. intros ->.
    unfold UnaryOp_backward. exec. eexists. split; [reflexivity|].
    by rewrite HB.
  - intros Hv. unfold Sum_forward, reduce_shape. exec.
    rewrite (np_setitem_listed _ _ Hv), Hs. cbn. intros ->.
    unfold Sum_backward. exec. eexists. split; [reflexivity|].
    by rewrite HB.
Qed.

(** X2: after [Reshape.forward] on [x] returned, [Reshape.backward] returns
    a buffer of the shape of [x] on the device memory of [grad_output], and
    invokes no primitive. *)
Theorem Reshape_backward_shape (x g out : Buffer) (sh : list Z) (st st' : State) :
  saved_tensors (ctx st) = [] →
  result (Reshape_forward x sh) st = Ok out →
  ctx st' = ctx (final (Reshape_forward x sh) st) →
  result (Reshape_backward g) st' = Ok (mkBuffer (shape x) (cl g))
  ∧ new_calls (Reshape_backward g) st' = [].
Proof.
  intros Hs. destruct st' as [c' n' t']. cbn.
  unfold Reshape_forward. exec.
  destruct (np_prod (shape x) =? np_prod (Reshape_shape (shape x) sh));
    cbn; [|done].
  rewrite Hs. cbn. intros _ ->.
  unfold Reshape_backward. exec. by rewrite drop_all.
Qed.

(** X3: for a slice [arg] with one [(start, stop)] pair per dimension of [x],
    [Slice.forward] returns a buffer of shape [stop - start] per dimension,
    and [Slice.backward], on a gradient of that shape, returns a buffer of
    exactly the shape of [x]: the slice [(0 - start, g + (s - stop))] of the
    gradient has length [s] in each dimension. *)
Theorem Slice_backward_shape (x : Buffer) (arg : list (Z * Z)) (st : State) :
  returns_out_shape B →
  saved_tensors (ctx st) = [] →
  ctx_arg (ctx st) = Some arg →
  length arg = length (shape x) →
  ∃ out, result (Slice_forward x (Some arg)) st = Ok out
    ∧ shape out = (λ y : Z * Z, y.2 - y.1) <$> arg
    ∧ ∀ g st', shape g = shape out →
        ctx st' = ctx (final (Slice_forward x (Some arg)) st) →
        ∃ b, result (Slice_backward g) st' = Ok b ∧ shape b = shape x.
Proof.
  intros HB Hs Ha Hlen.
  destruct st as [[nig saved str grp ord oarg] ncl tr]. cbn in Hs, Ha.
  subst saved oarg.
  eexists. split_and!.
  - unfold Slice_forward. exec. reflexivity.
  - by rewrite HB.
  - rewrite HB. cbn. intros g [c' n' t'] Hg. cbn.
    unfold final, Slice_forward. exec. intros ->.
    set (narg := zip_with (λ (p : Z * Z) (s : Z),
                   (0 - p.1, (p.2 - p.1) + (s - p.2))) arg (shape x)).
    unfold Slice_backward. exec.
    match goal with
    | |- context [comprehension ?f ?l] =>
        assert (Hnarg : comprehension f l = Ok narg)
    end.
    { apply comprehension_Forall2, Forall2_same_length_lookup_2.
      - unfold enumerate, narg.
        rewrite !length_zip_with, length_fmap, length_seq. lia.
      - intros i [k p] q. unfold enumerate, narg.
        intros [Hk Hp]%lookup_zip_Some.
        intros (p' & s & -> & Hp' & Hsx)%lookup_zip_with_Some.
        rewrite list_lookup_fmap in Hk.
        destruct (seq 0 (length arg) !! i) as [i'|] eqn:Hi; [|done].
        apply lookup_seq in Hi as [-> _]. cbn in Hk. simplify_eq. cbn.
        rewrite (py_index_nat (shape g) i (p.2 - p.1)).
        2:{ by rewrite Hg, list_lookup_fmap, Hp. }
        cbn. by rewrite (py_index_nat _ _ _ Hsx). }
    rewrite Hnarg. cbn.
    eexists. split; [reflexivity|]. rewrite HB. cbn.
    apply list_eq. intros i. unfold narg.
    rewrite list_lookup_fmap, lookup_zip_with.
    destruct (arg !! i) as [p|] eqn:Hp; cbn.
    + destruct (shape x !! i) as [s|] eqn:Hsx; cbn; [f_equal; lia|].
      apply lookup_lt_Some in Hp. apply lookup_ge_None in Hsx. lia.
    + symmetry. apply lookup_ge_None. apply lookup_ge_None in Hp. lia.
Qed.

End input_shaped.

Section input_shaped_examples.
#[local] Existing Instance demo_backend.

Lemma unary_Sum_backward_shape_witness :
  ∃ b, result (UnaryOp_backward ReLU (mkBuffer [2; 3] 12))
         (final (UnaryOp_forward ReLU (mkBuffer [2; 3] 10))
                (fresh_state (fresh_ctx true true (stride_int 1) 1))) = Ok b
     ∧ shape b = [2; 3].
Proof.
  destruct (unary_Sum_backward_shape (B:=demo_backend) ReLU
              (mkBuffer [2; 3] 10) (mkBuffer [2; 3] 12) [0]
              (fresh_state (fresh_ctx true true (stride_int 1) 1))
              (final (UnaryOp_forward ReLU (mkBuffer [2; 3] 10))
                     (fresh_state (fresh_ctx true true (stride_int 1) 1)))
              demo_returns_out_shape eq_refl) as [HU _].
  exact (HU eq_refl).
Defined.

Lemma Reshape_backward_shape_witness :
  result (Reshape_backward (mkBuffer [3; 2] 12))
    (final (Reshape_forward (mkBuffer [2; 3] 10) [3; -1])
           (fresh_state (fresh_ctx true true (stride_int 1) 1)))
  = Ok (mkBuffer [2; 3] 12)
  ∧ new_calls (Reshape_backward (mkBuffer [3; 2] 12))
      (final (Reshape_forward (mkBuffer [2; 3] 10) [3; -1])
             (fresh_state (fresh_ctx true true (stride_int 1) 1))) = [].
Proof.
  exact (Reshape_backward_shape (mkBuffer [2; 3] 10) (mkBuffer [3; 2] 12)
           (mkBuffer [3; 2] 10) [3; -1]
           (fresh_state (fresh_ctx true true (stride_int 1) 1))
           (final (Reshape_forward (mkBuffer [2; 3] 10) [3; -1])
                  (fresh_state (fresh_ctx true true (stride_int 1) 1)))
           eq_refl eq_refl eq_refl).
Defined.

Lemma Slice_backward_shape_witness :
  ∃ out, result (Slice_forward (mkBuffer [4; 6] 10) (Some [(1, 3); (-1, 7)]))
           (mkState (mkCtx [true] [] (stride_int 1) 1 [1; 0]
                           (Some [(1, 3); (-1, 7)])) 0 []) = Ok out
    ∧ shape out = [2; 8].
Proof.
  destruct (Slice_backward_shape (B:=demo_backend) (mkBuffer [4; 6] 10)
              [(1, 3); (-1, 7)]
              (mkState (mkCtx [true] [] (stride_int 1) 1 [1; 0]
                              (Some [(1, 3); (-1, 7)])) 0 [])
              demo_returns_out_shape eq_refl eq_refl eq_refl)
    as (out & Hf & Hsh & _).
  exists out. split; [exact Hf | exact Hsh].
Defined.

End input_shaped_examples.

(** ** Effects of the operators on the context and on the device *)

(** As [decide_goal], and when only tests whose subject holds a function
    with tests of its own are left, those are decided as a whole. *)
Ltac decide_all :=
  decide_goal;
  repeat (match goal with
          | |- context [match ?e with _ => _ end] =>
              lazymatch e with
              | match _ with _ => _ end => fail
              | _ => destruct e eqn:?
              end
          end; decide_goal).

Section effects.
Context {B : Backend}.

(** X4: a forward touches the device only when it succeeds.  A forward that
    raises has invoked no primitive and allocated no buffer; one that
    returns has invoked exactly one primitive and allocated exactly one
    buffer (Reshape: none of either).  In [ctx] a forward only extends
    [saved_tensors], and [Conv2D.forward] turns an integer stride into the
    pair it stands for; [needs_input_grad], [groups], [order] and [arg] are
    never written. *)
Theorem forward_effects (f : Forward) (st : State) :
  let st' := final (run_forward f) st in
    needs_input_grad (ctx st') = needs_input_grad (ctx st)
  ∧ ctx_groups (ctx st') = ctx_groups (ctx st)
  ∧ ctx_order (ctx st') = ctx_order (ctx st)
  ∧ ctx_arg (ctx st') = ctx_arg (ctx st)
  ∧ stride_as_pair (ctx_stride (ctx st')) = stride_as_pair (ctx_stride (ctx st))
  ∧ saved_tensors (ctx st) `prefix_of` saved_tensors (ctx st')
  ∧ match result (run_forward f) st with
    | Ok _ =>
        let n := match f with fwd_Reshape _ _ => 0%nat | _ => 1%nat end in
        length (new_calls (run_forward f) st) = n
        ∧ next_cl st' = (next_cl st + n)%nat
    | Raise _ =>
        new_calls (run_forward f) st = [] ∧ next_cl st' = next_cl st
    end.
Proof.
  destruct st as [[nig saved str grp ord arg] ncl tr].
  destruct f; cbn [run_forward];
    unfold UnaryOp_forward, Sum_forward, Max_forward, Add_forward,
      Sub_forward, Mul_forward, Pow_forward, Reshape_forward,
      Transpose_forward, Slice_forward, Matmul_forward, Conv2D_forward;
    exec; decide_goal.
  all: new_calls_simpl; rewrite ?drop_all; rewrite <- ?app_assoc; cbn.
  all: split_and!; try done; try lia; try (by apply prefix_app_r).
Qed.

(** X5: a backward never writes [ctx]: whatever it returns or raises, the
    context is the one it was given, so what [forward] saved is still there
    for another backward. *)
Theorem backward_keeps_ctx (b : Backward) (st : State) :
  ctx (final (run_backward b) st) = ctx st.
Proof.
  destruct st as [[nig saved str grp ord arg] ncl tr].
  destruct b; cbn [run_backward];
    unfold UnaryOp_backward, Sum_backward, Max_backward, Add_backward,
      Sub_backward, Mul_backward, Pow_backward, Reshape_backward,
      Transpose_backward, Slice_backward, Matmul_backward, Conv2D_backward;
    exec; decide_all; reflexivity.
Qed.

(** X6: a backward called on a context in which no forward has saved
    anything raises [ValueError] (there is nothing to unpack) before it
    invokes a primitive or allocates a buffer.  [Transpose.backward] is the
    exception: it reads [ctx.order], not [saved_tensors]. *)
Theorem backward_without_forward (b : Backward) (st : State) :
  saved_tensors (ctx st) = [] →
  (∀ g, b ≠ bwd_Transpose g) →
    result (run_backward b) st = Raise ValueError
  ∧ new_calls (run_backward b) st = []
  ∧ next_cl (final (run_backward b) st) = next_cl st.
Proof.
  destruct st as [[nig saved str grp ord arg] ncl tr]. cbn. intros -> Hb.
  destruct b; cbn [run_backward];
    try (by destruct (Hb grad_output));
    unfold UnaryOp_backward, Sum_backward, Max_backward, Add_backward,
      Sub_backward, Mul_backward, Pow_backward, Reshape_backward,
      Slice_backward, Matmul_backward, Conv2D_backward;
    exec; rewrite ?drop_all; try done.
  destruct (shape grad_output) as [|? [|? [|? [|? [|? ?]]]]]; cbn;
    by rewrite drop_all.
Qed.

End effects.

Section effects_examples.
#[local] Existing Instance demo_backend.

Lemma backward_without_forward_witness :
    result (run_backward (bwd_Mul (mkBuffer [2; 3] 12)))
      (fresh_state (fresh_ctx true true (stride_int 1) 1)) = Raise ValueError
  ∧ new_calls (run_backward (bwd_Mul (mkBuffer [2; 3] 12)))
      (fresh_state (fresh_ctx true true (stride_int 1) 1)) = []
  ∧ next_cl (final (run_backward (bwd_Mul (mkBuffer [2; 3] 12)))
      (fresh_state (fresh_ctx true true (stride_int 1) 1))) = 0%nat.
Proof.
  apply (backward_without_forward (B:=demo_backend)
           (bwd_Mul (mkBuffer [2; 3] 12))
           (fresh_state (fresh_ctx true true (stride_int 1) 1)) eq_refl).
  intros g. discriminate.
Defined.

End effects_examples.

(** ** The shape of a reduction *)

Lemma norm_index_invalid (n : nat) (i : Z) :
  ¬ (- Z.of_nat n ≤ i < Z.of_nat n) → norm_index n i = Raise IndexError.
Proof.
  intros Hi. unfold norm_index.
  rewrite !bool_decide_eq_false_2 by lia. done.
Qed.

(** One index out of bounds makes the whole assignment fail. *)
Lemma np_setitem_invalid (idx : list Z) (a : list Z) (v : Z) :
  ¬ valid_axis (length a) idx → np_setitem a idx v = Raise IndexError.
Proof.
  revert a. induction idx as [|i idx IH]; intros a Hv; cbn.
  - destruct Hv. apply Forall_nil_2.
  - destruct (decide (- Z.of_nat (length a) ≤ i < Z.of_nat (length a)))
      as [Hi|Hi].
    + destruct (norm_index_valid _ _ Hi) as (j & -> & _). cbn.
      apply IH. rewrite length_insert. intros Hv'. apply Hv.
      by apply Forall_cons.
    + by rewrite norm_index_invalid.
Qed.

Lemma keepdims_shape_length (sh axis : list Z) :
  length (keepdims_shape sh axis) = length sh.
Proof. apply length_imap. Qed.

Lemma reduce_shape_keepdims (sh axis : list Z) :
  valid_axis (length sh) axis →
  reduce_shape sh (Some axis) = Ok (keepdims_shape sh axis).
Proof. intros Hv. unfold reduce_shape. cbn. by apply np_setitem_listed. Qed.

(** X7: for an axis list within bounds, [reduce_shape] keeps the rank, is
    idempotent (reducing the reduced shape over the same axes changes
    nothing), and depends only on which dimensions the list names: the
    order of the entries, repetitions, and naming a dimension from the end
    (by a negative index) make no difference. *)
Theorem reduce_shape_algebra (sh axis : list Z) :
  valid_axis (length sh) axis →
  ∃ r, reduce_shape sh (Some axis) = Ok r
    ∧ length r = length sh
    ∧ reduce_shape r (Some axis) = Ok r
    ∧ ∀ axis', valid_axis (length sh) axis' →
        (∀ i, (i < length sh)%nat →
           listed (length sh) axis i ↔ listed (length sh) axis' i) →
        reduce_shape sh (Some axis') = Ok r.
Proof.
  intros Hv. exists (keepdims_shape sh axis).
  split_and!.
  - by apply reduce_shape_keepdims.
  - apply keepdims_shape_length.
  - rewrite reduce_shape_keepdims by (by rewrite keepdims_shape_length).
    f_equal. apply list_eq. intros i. unfold keepdims_shape.
    rewrite !list_lookup_imap, length_imap.
    destruct (sh !! i) as [d|]; cbn; [|done].
    by case_bool_decide.
  - intros axis' Hv' Hsame. rewrite reduce_shape_keepdims by done.
    f_equal. apply list_eq. intros i. unfold keepdims_shape.
    rewrite !list_lookup_imap.
    destruct (sh !! i) as [d|] eqn:Hi; cbn; [|done].
    apply lookup_lt_Some in Hi.
    by rewrite (bool_decide_ext _ _ (Hsame i Hi)).
Qed.

Section reduce_bounds.
Context {B : Backend}.

(** X8: when an entry of [axis] is outside [-n .. n-1] for an input of rank
    [n], [Sum.forward] and [Max.forward] raise [IndexError], and they do so
    before a primitive is invoked or a buffer allocated. *)
Theorem reduce_axis_out_of_bounds (input : Buffer) (axis : list Z) (st : State) :
  ¬ valid_axis (length (shape input)) axis →
    result (Sum_forward input (Some axis)) st = Raise IndexError
  ∧ new_calls (Sum_forward input (Some axis)) st = []
  ∧ next_cl (final (Sum_forward input (Some axis)) st) = next_cl st
  ∧ result (Max_forward input (Some axis)) st = Raise IndexError
  ∧ new_calls (Max_forward input (Some axis)) st = []
  ∧ next_cl (final (Max_forward input (Some axis)) st) = next_cl st.
Proof.
  intros Hv. unfold Sum_forward, Max_forward, reduce_shape. exec.
  rewrite (np_setitem_invalid _ _ _ Hv). cbn. by rewrite drop_all.
Qed.

End reduce_bounds.

Section reduce_shape_examples.
#[local] Existing Instance demo_backend.

Lemma reduce_shape_algebra_witness :
  ∃ r, reduce_shape [4; 3; 7; 5] (Some [1; -1]) = Ok r
     ∧ reduce_shape [4; 3; 7; 5] (Some [3; 1; 3]) = Ok r.
Proof.
  destruct (reduce_shape_algebra [4; 3; 7; 5] [1; -1]) as (r & Hr & _ & _ & Hp).
  { unfold valid_axis. repeat (apply Forall_cons; split; [cbn; lia|]).
    apply Forall_nil_2. }
  exists r. split; [exact Hr|]. apply Hp.
  - unfold valid_axis. repeat (apply Forall_cons; split; [cbn; lia|]).
    apply Forall_nil_2.
  - intros i Hi. unfold listed. cbn in *. rewrite !elem_of_cons, !elem_of_nil.
    lia.
Defined.

Lemma reduce_axis_out_of_bounds_witness :
  result (Sum_forward (mkBuffer [4; 3] 10) (Some [0; 2]))
    (fresh_state (fresh_ctx true true (stride_int 1) 1)) = Raise IndexError.
Proof.
  destruct (reduce_axis_out_of_bounds (B:=demo_backend) (mkBuffer [4; 3] 10)
              [0; 2] (fresh_state (fresh_ctx true true (stride_int 1) 1)))
    as (Hr & _).
  - unfold valid_axis. intros Hv.
    apply Forall_cons in Hv as [_ Hv]. apply Forall_cons in Hv as [Hv _].
    cbn in Hv. lia.
  - exact Hr.
Defined.

End reduce_shape_examples.

(** ** The backward of Max *)

Section max.
Context {B : Backend}.

(** X9: after [Max.forward] on [input] over valid axes returned [out], and
    in any device state, [Max.backward] returns (it cannot fail).  It
    invokes four primitives in this order: the mask [1.0*(a==b)] of [input]
    against [out] into a new buffer of the input's shape, whose result is
    [ret2]; the reduction [out += a], started at [1e-10], of [ret2] into a
    new buffer of the shape of [out], whose result is [div]; the division
    [a/b] of [ret2] by [div], written in place into [ret2]; and the product
    [a*b] of [ret2] with [grad_output], again in place into [ret2], whose
    result it returns.  What it returns has the shape of [input]. *)
Theorem Max_backward_after_forward (input g : Buffer) (axis : list Z)
    (st st' : State) :
  returns_out_shape B →
  saved_tensors (ctx st) = [] →
  valid_axis (length (shape input)) axis →
  ctx st' = ctx (final (Max_forward input (Some axis)) st) →
  ∃ out, result (Max_forward input (Some axis)) st = Ok out
    ∧ let n := next_cl st' in
      let mask := call_binary_op "1.0*(a==b)" input out
                    (mkBuffer (shape input) n) in
      let ret2 := kernel mask in
      let total := call_reduce_op "out += a" ret2
                     (mkBuffer (shape out) (S n)) (Some "1e-10") in
      let div := kernel total in
      let quotient := call_binary_op "a/b" ret2 div ret2 in
      let product := call_binary_op "a*b" ret2 g ret2 in
        result (Max_backward g) st' = Ok (kernel product)
      ∧ new_calls (Max_backward g) st' = [mask; total; quotient; product]
      ∧ shape (kernel product) = shape input
      ∧ shape ret2 = shape input
      ∧ shape div = shape out.
Proof.
  intros HB Hs Hv.
  destruct st as [[nig saved str grp ord arg] ncl tr]. cbn in Hs. subst saved.
  destruct st' as [c' n' t']. cbn.
  unfold final, Max_forward. exec.
  rewrite (np_setitem_listed _ _ Hv). cbn. intros ->.
  eexists. split; [reflexivity|].
  unfold Max_backward. exec.
  repeat (rewrite HB; cbn).
  rewrite (np_setitem_listed _ _ Hv). cbn.
  new_calls_simpl.
  split_and!; reflexivity.
Qed.

End max.

(** ** Convolution: the arguments of the kernels and the output size *)

Section conv.
Context {B : Backend}.

(** X10: after a [Conv2D.forward] that returned, [Conv2D.backward] gives
    [convdx] and [convdw] exactly the [conv_args] the forward gave [conv],
    for every gradient of rank 4: it recomputes [oy] and [ox] from the saved
    input and weights and never uses the sizes of the gradient it unpacked.
    [convdx] writes into a new buffer of the shape of [x], [convdw] into one
    of the shape of [w]. *)
Theorem Conv2D_backward_conv_args (x w g out : Buffer) (st st' : State)
    (f0 f1 : bool) :
  saved_tensors (ctx st) = [] →
  needs_input_grad (ctx st) = [f0; f1] →
  result (Conv2D_forward x w) st = Ok out →
  ctx st' = ctx (final (Conv2D_forward x w) st) →
  length (shape g) = 4%nat →
  ∃ ret conv_args nw,
      new_calls (Conv2D_forward x w) st = [call_conv x w ret conv_args]
    ∧ nw = (if f0 then S (next_cl st') else next_cl st')
    ∧ new_calls (Conv2D_backward g) st' =
        ((if f0 then [call_convdx w g (mkBuffer (shape x) (next_cl st')) conv_args]
          else []) ++
         (if f1 then [call_convdw x g (mkBuffer (shape w) nw) conv_args]
          else []))%list.
Proof.
  intros Hs Hn Hf Hc Hg.
  destruct (Conv2D_forward_inv _ _ _ _ Hf)
    as (bs & cin_ & iy & ix & cout & cin & H & W & ys & xs & oy & ox
        & Hx & Hw & Hstr & Hoy & Hox & Hcin & Hmod).
  revert Hc. unfold new_calls at 1. unfold final.
  rewrite (Conv2D_forward_run _ _ _ _ _ _ _ _ _ _ _ _ _ _ _
             Hx Hw Hstr Hoy Hox Hcin Hmod).
  cbn. rewrite Hs, Hn. cbn. destruct st' as [c' n' t']. cbn. intros ->.
  new_calls_simpl.
  assert (Hdiv : py_floordiv cout (ctx_groups (ctx st))
                 = Ok (cout / ctx_groups (ctx st))).
  { revert Hmod. unfold py_mod, py_floordiv.
    by destruct (ctx_groups (ctx st) =? 0). }
  apply Z.eqb_eq in Hcin.
  destruct (shape g) as [|g0 [|g1 [|g2 [|g3 [|? ?]]]]] eqn:Hsg; try done.
  do 3 eexists. split_and!; [reflexivity | reflexivity |].
  unfold Conv2D_backward. exec. rewrite Hsg, Hw, Hx. cbn.
  rewrite Hoy; cbn. rewrite Hox; cbn. rewrite Hcin; cbn.
  rewrite Hmod; cbn. rewrite Hdiv; cbn.
  destruct f0, f1; exec; new_calls_simpl; rewrite ?drop_all; reflexivity.
Qed.

(** X11: for a positive stride and a kernel no larger than the input, the
    output size [oy] that [Conv2D.forward] computes is the number of kernel
    positions that fit: it is at least 1, the last window ends inside the
    input ([(oy - 1) * ys + H <= iy]) and one more would not
    ([iy < oy * ys + H]); likewise for [ox]. *)
Theorem Conv2D_output_windows (x w out : Buffer) (st : State)
    (bs cin_ iy ix cout cin H W ys xs : Z) :
  returns_out_shape B →
  shape x = [bs; cin_; iy; ix] →
  shape w = [cout; cin; H; W] →
  stride_as_pair (ctx_stride (ctx st)) = (ys, xs) →
  0 < ys → 0 < xs → H ≤ iy → W ≤ ix →
  result (Conv2D_forward x w) st = Ok out →
  ∃ oy ox, shape out = [bs; cout; oy; ox]
    ∧ 1 ≤ oy ∧ (oy - 1) * ys + H ≤ iy < oy * ys + H
    ∧ 1 ≤ ox ∧ (ox - 1) * xs + W ≤ ix < ox * xs + W.
Proof.
  intros HB Hx Hw Hstr Hys Hxs HH HW Hf.
  destruct (Conv2D_forward_inv _ _ _ _ Hf)
    as (bs' & cin_' & iy' & ix' & cout' & cin' & H' & W' & ys' & xs' & oy & ox
        & Hx' & Hw' & Hstr' & Hoy & Hox & Hcin & Hmod).
  rewrite Hx in Hx'. rewrite Hw in Hw'. rewrite Hstr in Hstr'. simplify_eq.
  revert Hf. unfold result.
  rewrite (Conv2D_forward_run _ _ _ _ _ _ _ _ _ _ _ _ _ _ _
             Hx Hw Hstr Hoy Hox eq_refl Hmod).
  cbn. intros [= <-]. rewrite HB. cbn.
  revert Hoy Hox. unfold py_floordiv.
  rewrite (proj2 (Z.eqb_neq ys' 0)), (proj2 (Z.eqb_neq xs' 0)) by lia.
  intros [= <-] [= <-].
  exists ((iy' - (H' - ys')) / ys'), ((ix' - (W' - xs')) / xs').
  split; [done|].
  pose proof (Z.mul_div_le (iy' - (H' - ys')) ys' Hys).
  pose proof (Z.mul_succ_div_gt (iy' - (H' - ys')) ys' Hys).
  pose proof (Z.mul_div_le (ix' - (W' - xs')) xs' Hxs).
  pose proof (Z.mul_succ_div_gt (ix' - (W' - xs')) xs' Hxs).
  assert (1 ≤ (iy' - (H' - ys')) / ys') by (apply Z.div_le_lower_bound; lia).
  assert (1 ≤ (ix' - (W' - xs')) / xs') by (apply Z.div_le_lower_bound; lia).
  lia.
Qed.

End conv.

Section max_conv_examples.
#[local] Existing Instance demo_backend.

Lemma Max_backward_after_forward_witness :
  ∃ out, result (Max_forward (mkBuffer [4; 3; 7] 10) (Some [1]))
           (fresh_state (fresh_ctx true true (stride_int 1) 1)) = Ok out
    ∧ result (Max_backward (mkBuffer [4; 1; 7] 12))
        (final (Max_forward (mkBuffer [4; 3; 7] 10) (Some [1]))
               (fresh_state (fresh_ctx true true (stride_int 1) 1)))
      = Ok (mkBuffer [4; 3; 7] 1).
Proof.
  destruct (Max_backward_after_forward (B:=demo_backend)
              (mkBuffer [4; 3; 7] 10) (mkBuffer [4; 1; 7] 12) [1]
              (fresh_state (fresh_ctx true true (stride_int 1) 1))
              (final (Max_forward (mkBuffer [4; 3; 7] 10) (Some [1]))
                     (fresh_state (fresh_ctx true true (stride_int 1) 1)))
              demo_returns_out_shape eq_refl)
    as (out & Hf & Hb & _).
  - unfold valid_axis. apply Forall_cons. split; [cbn; lia | apply Forall_nil_2].
  - reflexivity.
  - exists out. split; [exact Hf | exact Hb].
Defined.

Lemma Conv2D_backward_conv_args_witness :
  ∃ ret conv_args,
      new_calls (Conv2D_forward (mkBuffer [2; 6; 7; 9] 10) (mkBuffer [4; 3; 3; 3] 11))
        (fresh_state (fresh_ctx true true (stride_int 2) 2))
      = [call_conv (mkBuffer [2; 6; 7; 9] 10) (mkBuffer [4; 3; 3; 3] 11) ret conv_args]
    ∧ new_calls (Conv2D_backward (mkBuffer [2; 4; 3; 4] 20))
        (final (Conv2D_forward (mkBuffer [2; 6; 7; 9] 10) (mkBuffer [4; 3; 3; 3] 11))
               (fresh_state (fresh_ctx true true (stride_int 2) 2)))
      = [call_convdx (mkBuffer [4; 3; 3; 3] 11) (mkBuffer [2; 4; 3; 4] 20)
           (mkBuffer [2; 6; 7; 9] 1) conv_args;
         call_convdw (mkBuffer [2; 6; 7; 9] 10) (mkBuffer [2; 4; 3; 4] 20)
           (mkBuffer [4; 3; 3; 3] 2) conv_args].
Proof.
  destruct (Conv2D_backward_conv_args (B:=demo_backend)
              (mkBuffer [2; 6; 7; 9] 10) (mkBuffer [4; 3; 3; 3] 11)
              (mkBuffer [2; 4; 3; 4] 20) (mkBuffer [2; 4; 3; 4] 0)
              (fresh_state (fresh_ctx true true (stride_int 2) 2))
              (final (Conv2D_forward (mkBuffer [2; 6; 7; 9] 10) (mkBuffer [4; 3; 3; 3] 11))
                     (fresh_state (fresh_ctx true true (stride_int 2) 2)))
              true true eq_refl eq_refl eq_refl eq_refl eq_refl)
    as (ret & conv_args & nw & Hf & -> & Hb).
  exists ret, conv_args. split; [exact Hf | exact Hb].
Defined.

Lemma Conv2D_output_windows_witness :
  ∃ oy ox, 1 ≤ oy ∧ (oy - 1) * 2 + 3 ≤ 7 < oy * 2 + 3
         ∧ 1 ≤ ox ∧ (ox - 1) * 2 + 3 ≤ 9 < ox * 2 + 3.
Proof.
  destruct (Conv2D_output_windows (B:=demo_backend)
              (mkBuffer [2; 6; 7; 9] 10) (mkBuffer [4; 3; 3; 3] 11)
              (mkBuffer [2; 4; 3; 4] 0)
              (fresh_state (fresh_ctx true true (stride_int 2) 2))
              2 6 7 9 4 3 3 3 2 2
              demo_returns_out_shape eq_refl eq_refl eq_refl)
    as (oy & ox & _ & H);
    [lia | lia | lia | lia | reflexivity |].
  exists oy, ox. exact H.
Defined.

End max_conv_examples.

(** ** How Matmul and Transpose forwards end *)

(** [t[i]] returns exactly for the indices [-n .. n-1], and raises
    [IndexError] for every other. *)
Lemma py_index_outcome (t : list Z) (i : Z) :
  (valid_index (length t) i ∧ ∃ v, py_index t i = Ok v)
  ∨ (¬ valid_index (length t) i ∧ py_index t i = Raise IndexError).
Proof.
  unfold valid_index, py_index, norm_index.
  case_bool_decide; [|case_bool_decide]; cbn.
  - left. split; [lia|].
    destruct (lookup_lt_is_Some_2 t (Z.to_nat i)) as [v ->]; [lia|]. by eexists.
  - left. split; [lia|].
    destruct (lookup_lt_is_Some_2 t (Z.to_nat (Z.of_nat (length t) + i)))
      as [v ->]; [lia|]. by eexists.
  - right. split; [lia | done].
Qed.

Lemma comprehension_py_index_invalid (t l : list Z) :
  ¬ Forall (valid_index (length t)) l →
  comprehension (py_index t) l = Raise IndexError.
Proof.
  induction l as [|i l IH]; intros Hv; cbn.
  - destruct Hv. apply Forall_nil_2.
  - destruct (py_index_outcome t i) as [[Hi [v ->]]|[Hi ->]]; cbn; [|done].
    rewrite IH; [done|]. intros Hl. apply Hv. by apply Forall_cons.
Qed.

Section outcomes.
Context {B : Backend}.

(** X12: [Matmul.forward] returns exactly when [input] has rank at least 1,
    [weight] rank at least 2 and [input.shape[-1] == weight.shape[-2]].  It
    raises [IndexError] exactly when [input] has rank 0 or [weight] rank
    below 2, and otherwise [AssertionError]; when it raises it has changed
    nothing: nothing saved in [ctx], no buffer allocated, no primitive
    invoked.  The leading dimensions of [weight] are not compared with
    anything. *)
Theorem Matmul_forward_outcome (input weight : Buffer) (st : State) :
    ((∃ b, result (Matmul_forward input weight) st = Ok b)
     ↔ ∃ k, py_index (shape input) (-1) = Ok k
          ∧ py_index (shape weight) (-2) = Ok k)
  ∧ (result (Matmul_forward input weight) st = Raise IndexError
     ↔ shape input = [] ∨ (length (shape weight) < 2)%nat)
  ∧ (∀ e, result (Matmul_forward input weight) st = Raise e →
       (e = IndexError ∨ e = AssertionError)
       ∧ final (Matmul_forward input weight) st = st).
Proof.
  assert (Hin : ¬ valid_index (length (shape input)) (-1) ↔ shape input = []).
  { unfold valid_index. destruct (shape input); cbn; split; try done; lia. }
  assert (Hwe : ¬ valid_index (length (shape weight)) (-2)
                ↔ (length (shape weight) < 2)%nat).
  { unfold valid_index. lia. }
  unfold Matmul_forward. exec.
  destruct (py_index_outcome (shape input) (-1)) as [[Hi [a ->]]|[Hi ->]]; cbn.
  2:{ split_and!.
      - split; [by intros [? ?] | by intros (? & ? & ?)].
      - split; [intros _; left; by apply Hin | done].
      - intros e [= <-]. split; [by left | done]. }
  destruct (py_index_outcome (shape weight) (-2)) as [[Hw [b Hb]]|[Hw Hb]];
    rewrite Hb; cbn.
  2:{ split_and!.
      - split; [by intros [? ?] | by intros (? & ? & ?)].
      - split; [intros _; right; by apply Hwe | done].
      - intros e [= <-]. split; [by left | done]. }
  destruct (py_index_neg (shape weight) (-1)) as (wl & Hl & _).
  { unfold valid_index in Hw. lia. }
  destruct (a =? b) eqn:Hab; cbn.
  - apply Z.eqb_eq in Hab as ->. rewrite Hl. cbn. split_and!.
    + split; [intros _; by exists b | intros _; by eexists].
    + split; [done|]. intros [H|H]; [by apply Hin in H | by apply Hwe in H].
    + done.
  - apply Z.eqb_neq in Hab. split_and!.
    + split; [by intros [? ?] | intros (k & ? & ?); congruence].
    + split; [done|]. intros [H|H]; [by apply Hin in H | by apply Hwe in H].
    + intros e [= <-]. split; [by right | done].
Qed.

(** X13: [Transpose.forward] checks nothing about [order] but that each
    entry is an index [-n .. n-1] into [x.shape]: then it returns a buffer
    with one dimension per entry of [order], dimension [j] being
    [x.shape[order[j]]], whether or not [order] is a permutation.  With an
    entry out of bounds it raises [IndexError] before a primitive is invoked
    or a buffer allocated. *)
Theorem Transpose_forward_outcome (x : Buffer) (order : list Z) (st : State) :
  returns_out_shape B →
    (Forall (valid_index (length (shape x))) order →
     ∃ b, result (Transpose_forward x order) st = Ok b
       ∧ length (shape b) = length order
       ∧ ∀ j i, order !! j = Some i →
           ∃ d, py_index (shape x) i = Ok d ∧ shape b !! j = Some d)
  ∧ (¬ Forall (valid_index (length (shape x))) order →
       result (Transpose_forward x order) st = Raise IndexError
     ∧ new_calls (Transpose_forward x order) st = []
     ∧ next_cl (final (Transpose_forward x order) st) = next_cl st).
Proof.
  intros HB. split; intros Hv.
  - destruct (comprehension_total (py_index (shape x)) order) as [sh Hsh].
    { eapply Forall_impl; [exact Hv|]. intros i Hi. cbn.
      destruct (py_index_outcome (shape x) i) as [[_ ?]|[? _]]; done. }
    unfold Transpose_forward. exec. rewrite Hsh. cbn.
    apply comprehension_Forall2 in Hsh.
    eexists. split_and!; [reflexivity | |].
    + rewrite HB. cbn. symmetry. by eapply Forall2_length.
    + intros j i Hj. rewrite HB. cbn.
      destruct (Forall2_lookup_l _ _ _ _ _ Hsh Hj) as (d & Hd & Hi).
      by exists d.
  - unfold Transpose_forward. exec.
    rewrite (comprehension_py_index_invalid _ _ Hv). cbn.
    by rewrite drop_all.
Qed.


End outcomes.

Section outcomes_examples.
#[local] Existing Instance demo_backend.

Lemma Transpose_forward_outcome_witness :
  ∃ b, result (Transpose_forward (mkBuffer [2; 3; 5] 10) [2; 2; -3; 1])
         (fresh_state (fresh_ctx true true (stride_int 1) 1)) = Ok b
     ∧ length (shape b) = 4%nat.
Proof.
  destruct (Transpose_forward_outcome (B:=demo_backend)
              (mkBuffer [2; 3; 5] 10) [2; 2; -3; 1]
              (fresh_state (fresh_ctx true true (stride_int 1) 1))
              demo_returns_out_shape) as [Hok _].
  destruct Hok as (b & Hb & Hlen & _).
  - repeat (apply Forall_cons; split; [unfold valid_index; cbn; lia|]).
    apply Forall_nil_2.
  - exists b. split; [exact Hb | exact Hlen].
Defined.


End outcomes_examples.

(** ** The gradients of Mul and Pow *)

Section product.
Context {B : Backend}.

(** X15: the product rule of [Mul.backward].  After [Mul.forward] on [x] and
    [y], the gradient for [x] is the product [a*b] of [y] and [grad_output]
    unbroadcast to [x.shape], and the gradient for [y] the product of [x]
    and [grad_output] unbroadcast to [y.shape], each only when needed.  Both
    products are written into the one buffer [tmp] of the gradient's shape,
    and each is reduced out of it before the next call overwrites it. *)
Theorem Mul_backward_product_rule (x y g out : Buffer) (st st' : State)
    (f0 f1 : bool) :
  saved_tensors (ctx st) = [] →
  needs_input_grad (ctx st) = [f0; f1] →
  result (Mul_forward x y) st = Ok out →
  ctx st' = ctx (final (Mul_forward x y) st) →
  let n := next_cl st' in
  let tmp := mkBuffer (shape g) n in
  let px := call_binary_op "a*b" y g tmp in
  let py := call_binary_op "a*b" x g tmp in
  let rx := call_reduce_op "out += a" (kernel px) (mkBuffer (shape x) (S n)) None in
  let ry := call_reduce_op "out += a" (kernel py)
              (mkBuffer (shape y) (if f0 then S (S n) else S n)) None in
    result (Mul_backward g) st'
    = Ok (if f0 then Some (kernel rx) else None,
          if f1 then Some (kernel ry) else None)
  ∧ new_calls (Mul_backward g) st'
    = ((if f0 then [px; rx] else []) ++ (if f1 then [py; ry] else []))%list.
Proof.
  intros Hs Hn Hf Hc.
  destruct st as [[nig saved str grp ord arg] ncl tr]; cbn in Hs, Hn.
  subst saved nig. destruct st' as [c' n' t']; cbn in Hc.
  unfold Mul_forward in *. revert Hf Hc. exec. intros Hf Hc.
  decide_run Hf. subst c'.
  unfold Mul_backward. exec.
  destruct f0, f1; exec; new_calls_simpl; rewrite ?drop_all; done.
Qed.

(** X16: the power rule of [Pow.backward].  After [Pow.forward] on [x] and
    [y], the gradient for [x] is [grad_output] times [b * pow(a, b-1.0f)] of
    [x] and [y], unbroadcast to [x.shape], and the gradient for [y] is
    [grad_output] times [log(a) * pow(a, b)], unbroadcast to [y.shape], each
    only when needed.  The derivative is computed into [tmp] and multiplied
    by the gradient in place. *)
Theorem Pow_backward_power_rule (x y g out : Buffer) (st st' : State)
    (f0 f1 : bool) :
  saved_tensors (ctx st) = [] →
  needs_input_grad (ctx st) = [f0; f1] →
  result (Pow_forward x y) st = Ok out →
  ctx st' = ctx (final (Pow_forward x y) st) →
  let n := next_cl st' in
  let tmp := mkBuffer (shape g) n in
  let dx := call_binary_op "b * pow(a, b-1.0f)" x y tmp in
  let dy := call_binary_op "log(a) * pow(a, b)" x y tmp in
  let mx := call_binary_op "a*b" g (kernel dx) tmp in
  let my := call_binary_op "a*b" g (kernel dy) tmp in
  let rx := call_reduce_op "out += a" (kernel mx) (mkBuffer (shape x) (S n)) None in
  let ry := call_reduce_op "out += a" (kernel my)
              (mkBuffer (shape y) (if f0 then S (S n) else S n)) None in
    result (Pow_backward g) st'
    = Ok (if f0 then Some (kernel rx) else None,
          if f1 then Some (kernel ry) else None)
  ∧ new_calls (Pow_backward g) st'
    = ((if f0 then [dx; mx; rx] else []) ++ (if f1 then [dy; my; ry] else []))%list.
Proof.
  intros Hs Hn Hf Hc.
  destruct st as [[nig saved str grp ord arg] ncl tr]; cbn in Hs, Hn.
  subst saved nig. destruct st' as [c' n' t']; cbn in Hc.
  unfold Pow_forward in *. revert Hf Hc. exec. intros Hf Hc.
  decide_run Hf. subst c'.
  unfold Pow_backward. exec.
  destruct f0, f1; exec; new_calls_simpl; rewrite ?drop_all; done.
Qed.

End product.

Section product_examples.
#[local] Existing Instance demo_backend.

Lemma Mul_backward_product_rule_witness :
  result (Mul_backward (mkBuffer [2; 3] 12))
    (final (Mul_forward (mkBuffer [2; 3] 10) (mkBuffer [1; 3] 11))
           (fresh_state (fresh_ctx true true (stride_int 1) 1)))
  = Ok (Some (mkBuffer [2; 3] 2), Some (mkBuffer [1; 3] 3)).
Proof.
  destruct (Mul_backward_product_rule (B:=demo_backend)
              (mkBuffer [2; 3] 10) (mkBuffer [1; 3] 11) (mkBuffer [2; 3] 12)
              (mkBuffer [2; 3] 0)
              (fresh_state (fresh_ctx true true (stride_int 1) 1))
              (final (Mul_forward (mkBuffer [2; 3] 10) (mkBuffer [1; 3] 11))
                     (fresh_state (fresh_ctx true true (stride_int 1) 1)))
              true true eq_refl eq_refl eq_refl eq_refl) as [Hr _].
  exact Hr.
Defined.

Lemma Pow_backward_power_rule_witness :
  result (Pow_backward (mkBuffer [2; 3] 12))
    (final (Pow_forward (mkBuffer [2; 3] 10) (mkBuffer [1; 3] 11))
           (fresh_state (fresh_ctx true false (stride_int 1) 1)))
  = Ok (Some (mkBuffer [2; 3] 2), None).
Proof.
  destruct (Pow_backward_power_rule (B:=demo_backend)
              (mkBuffer [2; 3] 10) (mkBuffer [1; 3] 11) (mkBuffer [2; 3] 12)
              (mkBuffer [2; 3] 0)
              (fresh_state (fresh_ctx true false (stride_int 1) 1))
              (final (Pow_forward (mkBuffer [2; 3] 10) (mkBuffer [1; 3] 11))
                     (fresh_state (fresh_ctx true false (stride_int 1) 1)))
              true false eq_refl eq_refl eq_refl eq_refl) as [Hr _].
  exact Hr.
Defined.

End product_examples.

(** ** Reshape: the inferred dimension *)

Lemma wrap64_id (z : Z) : - 2 ^ 63 ≤ z < 2 ^ 63 → wrap64 z = z.
Proof. intros Hz. unfold wrap64. rewrite Z.mod_small; lia. Qed.

Lemma numel_app (l k : list Z) : numel (l ++ k) = numel l * numel k.
Proof.
  unfold numel. induction l as [|v l IH]; cbn; [by destruct (foldr Z.mul 1 k)|].
  rewrite IH. lia.
Qed.

Lemma np_prod_snoc (l : list Z) (v : Z) :
  np_prod (l ++ [v]) = wrap64 (np_prod l * v).
Proof. unfold np_prod. by rewrite foldl_app. Qed.

Lemma abs_factor_bound (a v b : Z) :
  v ≠ 0 → Z.abs (a * v) < b → Z.abs a < b.
Proof.
  intros Hv. rewrite Z.abs_mul.
  assert (1 ≤ Z.abs v) by lia. pose proof (Z.abs_nonneg a).
  generalize dependent (Z.abs a). generalize dependent (Z.abs v).
  intros; nia.
Qed.

(** Without a zero entry, and when the exact product fits int64, no
    intermediate product wraps: [np.prod] is the exact product. *)
Lemma np_prod_numel (l : list Z) :
  Forall (λ v, v ≠ 0) l → Z.abs (numel l) < 2 ^ 63 → np_prod l = numel l.
Proof.
  induction l as [|v l IH] using rev_ind; intros Hnz Hb; [done|].
  apply Forall_app in Hnz as [Hl Hv]. apply Forall_inv in Hv.
  rewrite numel_app in Hb |- *. rewrite np_prod_snoc.
  replace (numel [v]) with v in * by (unfold numel; cbn; lia).
  rewrite IH; [|done|by eapply abs_factor_bound].
  apply wrap64_id. lia.
Qed.

Lemma np_prod_zero (l k : list Z) : np_prod (l ++ 0 :: k) = 0.
Proof.
  unfold np_prod. rewrite foldl_app. cbn [foldl]. rewrite Z.mul_0_r.
  change (wrap64 0) with 0.
  induction k as [|v k IH]; cbn [foldl]; [done|].
  rewrite Z.mul_0_l. change (wrap64 0) with 0. exact IH.
Qed.

Lemma numel_pos (l : list Z) : Forall (λ d, 0 < d) l → 0 < numel l.
Proof. unfold numel. induction 1; cbn; lia. Qed.

Lemma Reshape_shape_keeps (v : Z) (l : list Z) :
  Forall (λ d, 0 < d) l → (λ s, if s =? -1 then v else s) <$> l = l.
Proof.
  induction 1 as [|d l Hd _ IH]; cbn; [done|].
  rewrite IH. by rewrite (proj2 (Z.eqb_neq d (-1))) by lia.
Qed.

(** X17: the [-1] of a requested shape.  For positive dimensions whose
    products fit int64, [Reshape.forward] on the shape [pre + (-1,) + post]
    replaces the [-1] by the number of elements of [x] divided by the
    product of the other entries, and returns a buffer of that shape on the
    memory of [x] when the division is exact; when it is not, the assertion
    on the element counts fails. *)
Theorem Reshape_infers_dimension (x : Buffer) (pre post : list Z) (st : State) :
  Forall (λ d, 0 < d) (shape x) →
  Forall (λ d, 0 < d) pre →
  Forall (λ d, 0 < d) post →
  numel (shape x) < 2 ^ 63 →
  numel (pre ++ post) < 2 ^ 63 →
  result (Reshape_forward x (pre ++ [-1] ++ post)) st
  = if decide (numel (shape x) `mod` numel (pre ++ post) = 0)
    then Ok (mkBuffer (pre ++ [numel (shape x) / numel (pre ++ post)] ++ post)
                      (cl x))
    else Raise AssertionError.
Proof.
  intros Hx Hpre Hpost HP Hp.
  pose proof (numel_pos _ Hx) as HP0.
  pose proof (numel_pos _ Hpre) as Hpre0.
  pose proof (numel_pos _ Hpost) as Hpost0.
  set (P := numel (shape x)) in *.
  rewrite numel_app in *.
  set (p := numel pre * numel post) in *.
  assert (Hp0 : 0 < p) by (unfold p; nia).
  assert (HnpP : np_prod (shape x) = P).
  { apply np_prod_numel; [|lia].
    eapply Forall_impl; [exact Hx|]. cbn. lia. }
  assert (Hnpsh : np_prod (pre ++ [-1] ++ post) = - p).
  { rewrite np_prod_numel.
    - rewrite numel_app. cbn [app]. change (-1 :: post) with ([-1] ++ post)%list.
      rewrite numel_app. unfold p. change (numel [-1]) with (-1). lia.
    - apply Forall_app. split; [eapply Forall_impl; [exact Hpre|]; cbn; lia|].
      apply Forall_cons. split; [done|].
      eapply Forall_impl; [exact Hpost|]. cbn. lia.
    - rewrite numel_app. cbn [app]. change (-1 :: post) with ([-1] ++ post)%list.
      rewrite numel_app. change (numel [-1]) with (-1). unfold p in *. nia. }
  pose proof (Z.mul_div_le P p Hp0) as Hle.
  assert (Hq0 : 0 ≤ P / p) by (apply Z.div_pos; lia).
  assert (Hsh : Reshape_shape (shape x) (pre ++ [-1] ++ post)
                = (pre ++ [P / p] ++ post)%list).
  { unfold Reshape_shape. rewrite HnpP, Hnpsh.
    rewrite !fmap_app.
    rewrite (Reshape_shape_keeps _ pre), (Reshape_shape_keeps _ post) by done.
    cbn. do 2 f_equal. unfold np_floordiv.
    rewrite (wrap64_id (- P)) by lia.
    rewrite Z.div_opp_opp by lia. apply wrap64_id. nia. }
  unfold Reshape_forward. exec. cbn [app] in Hsh. rewrite Hsh, HnpP.
  assert (Hnum : numel (pre ++ [P / p] ++ post) = p * (P / p)).
  { rewrite numel_app. cbn [app]. change (P / p :: post) with ([P / p] ++ post)%list.
    rewrite numel_app. replace (numel [P / p]) with (P / p)
      by (unfold numel; cbn; lia). unfold p. lia. }
  assert (Hnp : np_prod (pre ++ [P / p] ++ post) = p * (P / p)).
  { destruct (decide (P / p = 0)) as [Hz|Hz].
    - rewrite Hz. cbn [app]. rewrite np_prod_zero. lia.
    - rewrite np_prod_numel; [done| |rewrite Hnum; nia].
      apply Forall_app. split; [eapply Forall_impl; [exact Hpre|]; cbn; lia|].
      apply Forall_cons. split; [done|].
      eapply Forall_impl; [exact Hpost|]. cbn. lia. }
  cbn [app] in Hnp. rewrite Hnp.
  case_decide as Hmod.
  - rewrite (proj2 (Z.eqb_eq P (p * (P / p)))); [done|].
    by apply Z.div_exact; [lia|].
  - rewrite (proj2 (Z.eqb_neq P (p * (P / p)))); [done|].
    intros Heq. apply Hmod. by apply Z.div_exact; [lia|].
Qed.

Lemma Reshape_infers_dimension_witness :
  result (Reshape_forward (mkBuffer [4; 3; 5] 10) ([2] ++ [-1] ++ [3]))
    (fresh_state (fresh_ctx true true (stride_int 1) 1))
  = Ok (mkBuffer [2; 10; 3] 10).
Proof.
  refine (Reshape_infers_dimension (mkBuffer [4; 3; 5] 10) [2] [3]
            (fresh_state (fresh_ctx true true (stride_int 1) 1)) _ _ _ _ _).
  - repeat (apply Forall_cons; split; [lia|]). apply Forall_nil_2.
  - repeat (apply Forall_cons; split; [lia|]). apply Forall_nil_2.
  - repeat (apply Forall_cons; split; [lia|]). apply Forall_nil_2.
  - reflexivity.
  - reflexivity.
Defined.

(** ** Matmul: the forward shape rule applied to the gradient *)

Lemma py_slice_0_m1_snoc (l : list Z) (v : Z) : py_slice_0_m1 (l ++ [v]) = l.
Proof.
  unfold py_slice_0_m1. rewrite length_app. cbn.
  replace (length l + 1 - 1)%nat with (length l) by lia.
  by rewrite take_app_length.
Qed.

Lemma py_slice_0_m1_last (l : list Z) (k : Z) :
  py_index l (-1) = Ok k → (py_slice_0_m1 l ++ [k])%list = l.
Proof.
  intros Hk. induction l as [|a l _] using rev_ind; [done|].
  rewrite py_slice_0_m1_snoc. f_equal. f_equal.
  destruct (py_index_neg (l ++ [a]) (-1)) as (v & Hv & Hl).
  { rewrite length_app. cbn. lia. }
  rewrite Hk in Hv. injection Hv as ->.
  rewrite length_app in Hl. cbn in Hl.
  replace (Z.to_nat (Z.of_nat (length l + 1) + -1)) with (length l) in Hl by lia.
  rewrite lookup_app_r, Nat.sub_diag in Hl by lia. cbn in Hl. congruence.
Qed.

Section matmul_rule.
Context {B : Backend}.

(** X18: the buffer [Matmul.backward] allocates for [grad_input] has the
    shape the forward's own rule assigns to the product of the gradient with
    the transposed weight: for the [out] a forward returned,
    [out.shape[:-1] + [weight.shape[-2]]] is [input.shape]. *)
Theorem Matmul_grad_input_shape_rule (input weight out : Buffer) (st : State) :
  returns_out_shape B →
  result (Matmul_forward input weight) st = Ok out →
  ∃ k, py_index (shape weight) (-2) = Ok k
     ∧ (py_slice_0_m1 (shape out) ++ [k])%list = shape input.
Proof.
  intros HB Hf.
  assert (∃ k wl, py_index (shape input) (-1) = Ok k
                ∧ py_index (shape weight) (-2) = Ok k
                ∧ py_index (shape weight) (-1) = Ok wl) as (k & wl & Hi & Hw & Hl).
  { revert Hf. unfold Matmul_forward. exec. intros Hf. decide_run Hf.
    match goal with H : (_ =? _) = true |- _ => apply Z.eqb_eq in H as -> end.
    by do 2 eexists. }
  revert Hf. unfold result. rewrite (Matmul_forward_run _ _ _ _ _ Hi Hw Hl).
  cbn. intros [= <-]. exists k. split; [done|].
  rewrite HB. cbn [call_out shape]. rewrite py_slice_0_m1_snoc.
  by apply py_slice_0_m1_last.
Qed.

End matmul_rule.

Section matmul_rule_examples.
#[local] Existing Instance demo_backend.

Lemma Matmul_grad_input_shape_rule_witness :
  ∃ k, py_index [3; 4] (-2) = Ok k
     ∧ (py_slice_0_m1 [5; 2; 4] ++ [k])%list = [5; 2; 3].
Proof.
  exact (Matmul_grad_input_shape_rule (B:=demo_backend)
           (mkBuffer [5; 2; 3] 10) (mkBuffer [3; 4] 11) (mkBuffer [5; 2; 4] 0)
           (fresh_state (fresh_ctx true true (stride_int 1) 1))
           demo_returns_out_shape eq_refl).
Defined.

End matmul_rule_examples.
